(** * A gesture-driven solar system, embedded in Rocq

    The program is a React/three.js application in two components:
    [HandController] turns the hand landmarks of a video frame into a
    boolean "fist" signal, and [SolarSystem] animates a sun and eight
    planets towards one of two configurations chosen by that signal.

    JavaScript numbers are IEEE 754 binary64 values, so the embedding
    computes with Rocq's primitive [float], which is the same format with
    the same rounding.  [Math.cos], [Math.sin], the simplex noise field
    and the browser's colour parser are taken as parameters.  What the
    interpolation does under rounding is derived from the specification of
    the format in [SpecFloat]. *)

From Stdlib Require Import ZArith List Bool Floats Uint63 Lia.
From stdpp Require Import base list strings.

Set Warnings "-inexact-float".
Set Default Proof Using "Type".

(* ================================================================== *)
(** ** Numbers *)

(** What the interpolation code needs of its numbers.  The program runs
    at the [float] instance. *)
Class Arith (N : Type) := {
  num_one : N;
  num_add : N -> N -> N;
  num_sub : N -> N -> N;
  num_mul : N -> N -> N
}.

#[global] Instance float_arith : Arith float :=
  {| num_one := 1%float;
     num_add := PrimFloat.add; num_sub := PrimFloat.sub; num_mul := PrimFloat.mul |}.

(** JavaScript's [a > b] on numbers: false as soon as one side is NaN. *)
Definition js_gt (a b : float) : bool := PrimFloat.ltb b a.
Definition js_lt (a b : float) : bool := PrimFloat.ltb a b.

(** A non-negative integer loop counter used as a number. *)
Definition of_nat (n : nat) : float := PrimFloat.of_uint63 (Uint63.of_Z (Z.of_nat n)).

(** [Math.max] and [Math.min] on two numbers: NaN if either is NaN, and
    -0 is smaller than +0. *)
Definition is_neg_zero (a : float) : bool :=
  match Prim2SF a with S754_zero true => true | _ => false end.

Definition Math_max (a b : float) : float :=
  if PrimFloat.is_nan a || PrimFloat.is_nan b then PrimFloat.nan
  else if PrimFloat.ltb a b then b
  else if PrimFloat.ltb b a then a
  else if is_neg_zero a then b else a.

Definition Math_min (a b : float) : float :=
  if PrimFloat.is_nan a || PrimFloat.is_nan b then PrimFloat.nan
  else if PrimFloat.ltb a b then a
  else if PrimFloat.ltb b a then b
  else if is_neg_zero a then a else b.

(** Storing a number into a [Uint8ClampedArray]: NaN becomes 0, the value
    is clamped to 0..255 and rounded to the nearest integer, ties to even. *)
Definition toUint8Clamp (v : float) : Z :=
  match Prim2SF v with
  | S754_zero _ => 0
  | S754_nan => 0
  | S754_infinity s => if s then 0 else 255
  | S754_finite true _ _ => 0
  | S754_finite false m e =>
      if (0 <=? e)%Z then Z.min 255 (Z.pos m * 2 ^ e)
      else
        let d := (2 ^ (- e))%Z in
        let q := (Z.pos m / d)%Z in
        let r := (Z.pos m mod d)%Z in
        let n := match (2 * r ?= d)%Z with
                 | Lt => q
                 | Gt => (q + 1)%Z
                 | Eq => if Z.even q then q else (q + 1)%Z
                 end in
        Z.min 255 n
  end.

(* ================================================================== *)
(** ** The parts of three.js the program calls *)

Module THREE.

Record Vector3 (N : Type) := mkVector3 { x : N; y : N; z : N }.
Arguments mkVector3 {N} _ _ _.
Arguments x {N} _.
Arguments y {N} _.
Arguments z {N} _.

Section Interpolation.
Context {N : Type} `{Arith N}.

(** [Vector3.prototype.lerp]: each component is advanced by
    [this.c += (v.c - this.c) * alpha]. *)
Definition lerp1 (this v alpha : N) : N :=
  num_add this (num_mul (num_sub v this) alpha).

Definition lerp (this v : Vector3 N) (alpha : N) : Vector3 N :=
  {| x := lerp1 (x this) (x v) alpha;
     y := lerp1 (y this) (y v) alpha;
     z := lerp1 (z this) (z v) alpha |}.

(** [MathUtils.lerp (x, y, t) = (1 - t) * x + t * y]. *)
Definition MathUtils_lerp (x y t : N) : N :=
  num_add (num_mul (num_sub num_one t) x) (num_mul t y).
End Interpolation.

(** What a 2D canvas holds after the drawing calls the program makes. *)
Inductive CanvasContent :=
| ImageData (data : list Z)
| RadialGradientFill (x0 y0 r0 x1 y1 r1 : Z) (stops : list (float * string))
| LinearGradientFill (x0 y0 x1 y1 : Z) (stops : list (float * string)).

Record Canvas := mkCanvas { width : nat; height : nat; content : CanvasContent }.

(** [new THREE.Texture()] carries no image; [new THREE.CanvasTexture (c)]
    wraps a canvas. *)
Inductive Texture :=
| EmptyTexture
| CanvasTexture (canvas : Canvas).

End THREE.

(* ================================================================== *)
(** ** HandController.tsx *)

Module HandController.

(** One point of the pose estimator's output. *)
Record NormalizedLandmark := mkLandmark { x : float; y : float; z : float }.

Abbreviation NormalizedLandmarkList := (list NormalizedLandmark).

(** [results.multiHandLandmarks]: absent, or one list per detected hand. *)
Definition Results := option (list NormalizedLandmarkList).

(** [isFingerClosed]: reading a landmark that does not exist raises a
    TypeError, rendered as [None]. *)
Definition isFingerClosed (landmarks : NormalizedLandmarkList)
    (tipIdx pipIdx : nat) : option bool :=
  tip ← landmarks !! tipIdx;
  pip ← landmarks !! pipIdx;
  Some (js_gt (y tip) (y pip)).

(** [onResults]: the debug text it sets and the value it hands to
    [onGestureChange]; [None] when the handler throws. *)
Definition onResults (multiHandLandmarks : Results) : option (string * bool) :=
  match multiHandLandmarks with
  | None | Some [] => Some ("No Hand", false)
  | Some (landmarks :: _) =>
      indexClosed ← isFingerClosed landmarks 8 6;
      middleClosed ← isFingerClosed landmarks 12 10;
      ringClosed ← isFingerClosed landmarks 16 14;
      pinkyClosed ← isFingerClosed landmarks 20 18;
      let closedFingers := 0 in
      let closedFingers := if indexClosed : bool then S closedFingers else closedFingers in
      let closedFingers := if middleClosed : bool then S closedFingers else closedFingers in
      let closedFingers := if ringClosed : bool then S closedFingers else closedFingers in
      let closedFingers := if pinkyClosed : bool then S closedFingers else closedFingers in
      let isFist := 3 <=? closedFingers in
      Some (if isFist then "FIST DETECTED" else "OPEN HAND", isFist)
  end.

(** The state the effect (l.14-63) works on: the variable
    [animationFrameId], the handles of the frame callbacks the browser
    still holds, whether a call of [detect] is suspended at
    [await hands.send], whether [hands.close ()] has run, and the handle
    the browser hands out next. *)
Record Effect := mkEffect {
  animationFrameId : option nat;
  requested : list nat;
  sending : bool;
  closed : bool;
  nextHandle : nat
}.

(** [animationFrameId = requestAnimationFrame (detect)]. *)
Definition requestAnimationFrame (e : Effect) : Effect :=
  {| animationFrameId := Some (nextHandle e);
     requested := nextHandle e :: requested e;
     sending := sending e;
     closed := closed e;
     nextHandle := S (nextHandle e) |}.

(** A call of [detect] up to the point where it gives up control: with the
    video ready it stops at [await hands.send]; otherwise it requests the
    next frame and returns. *)
Definition detect (videoReady : bool) (e : Effect) : Effect :=
  if videoReady then
    {| animationFrameId := animationFrameId e; requested := requested e;
       sending := true; closed := closed e; nextHandle := nextHandle e |}
  else requestAnimationFrame e.

(** The promise of [hands.send] settles, fulfilled or rejected: the
    suspended [detect] goes on to request the next frame. *)
Definition sendSettles (e : Effect) : Effect :=
  if sending e then
    requestAnimationFrame
      {| animationFrameId := animationFrameId e; requested := requested e;
         sending := false; closed := closed e; nextHandle := nextHandle e |}
  else e.

(** The browser runs the frame callback registered under [handle], if it
    still holds it. *)
Definition frameFires (handle : nat) (videoReady : bool) (e : Effect) : Effect :=
  if bool_decide (handle ∈ requested e) then
    detect videoReady
      {| animationFrameId := animationFrameId e;
         requested := List.filter (fun h => negb (h =? handle)) (requested e);
         sending := sending e; closed := closed e; nextHandle := nextHandle e |}
  else e.

(** [cancelAnimationFrame (id)]; an undefined [id] names no callback. *)
Definition cancelAnimationFrame (id : option nat) (e : Effect) : Effect :=
  match id with
  | Some handle =>
      {| animationFrameId := animationFrameId e;
         requested := List.filter (fun h => negb (h =? handle)) (requested e);
         sending := sending e; closed := closed e; nextHandle := nextHandle e |}
  | None => e
  end.

(** The function the effect returns:
    [cancelAnimationFrame (animationFrameId); hands.close ()]. *)
Definition cleanup (e : Effect) : Effect :=
  let e := cancelAnimationFrame (animationFrameId e) e in
  {| animationFrameId := animationFrameId e; requested := requested e;
     sending := sending e; closed := true; nextHandle := nextHandle e |}.

(** The body of the effect: the debug text after it, and the state it
    leaves behind.  Without a [Hands] class it reports the error and
    returns before anything is created; otherwise it ends with the first
    call of [detect]. *)
Definition useEffect (handsClassFound videoReady : bool) : string * option Effect :=
  if handsClassFound then
    ("Init AI...",
     Some (detect videoReady
             {| animationFrameId := None; requested := []; sending := false;
                closed := false; nextHandle := 1 |}))
  else ("AI Load Error", None).

(** What the browser does to a started effect: a pending send settles, or
    a frame callback runs. *)
Inductive Tick :=
| SendSettles
| FrameFires (handle : nat) (videoReady : bool).

Definition tick (e : Effect) (t : Tick) : Effect :=
  match t with
  | SendSettles => sendSettles e
  | FrameFires handle videoReady => frameFires handle videoReady e
  end.

Definition ticks (ts : list Tick) (e : Effect) : Effect := fold_left tick ts e.

End HandController.

(* ================================================================== *)
(** ** SolarSystem.tsx *)

(** What the program takes from its host: the two trigonometric
    functions, the noise field returned by [createNoise3D ()], and the
    canvas's reading of a fill style as an opaque RGB triple. *)
Class Host := {
  Math_cos : float -> float;
  Math_sin : float -> float;
  noise3D : float -> float -> float -> float;
  parseColor : string -> Z * Z * Z
}.

Module SolarSystem.
Import THREE.
Local Open Scope float_scope.

Definition Math_PI : float := 3.141592653589793.

(** [CONFIG] *)
Definition CONFIG_sunSize : float := 15.
Definition CONFIG_bgTopColor : Z := 0x00000a.
Definition CONFIG_bgBottomColor : Z := 0x050010.
Definition CONFIG_orbitColor : Z := 0x00aaff.
Definition CONFIG_ambientLight : Z := 0x151020.
Definition CONFIG_bloomStrength : float := 1.8.
Definition CONFIG_bloomRadius : float := 1.0.
Definition CONFIG_bloomThreshold : float := 0.1.
Definition CONFIG_speedFactor : float := 0.3.

(** One row of [PLANETS]. *)
Record Planet := mkPlanet {
  p_name : string; p_size : float; p_dist : float; p_speed : float;
  p_color : string; p_type : string; p_ring : bool
}.

Definition PLANETS : list Planet :=
  [ mkPlanet "Mercury" 1.5 35 (-0.04) "#b0a090" "Terrestrial" false;
    mkPlanet "Venus" 3.5 50 (-0.015) "#e3bb76" "Terrestrial" false;
    mkPlanet "Earth" 3.8 70 (-0.01) "#2277ff" "Terrestrial" false;
    mkPlanet "Mars" 2.0 90 (-0.008) "#c1440e" "Terrestrial" false;
    mkPlanet "Jupiter" 9.0 130 (-0.004) "#dcb288" "Gas Giant" false;
    mkPlanet "Saturn" 7.5 170 (-0.003) "#eebb88" "Gas Giant" true;
    mkPlanet "Uranus" 5.0 210 (-0.002) "#aaddff" "Ice Giant" false;
    mkPlanet "Neptune" 4.8 245 (-0.001) "#3355ff" "Ice Giant" false ].

(** The [systemState] prop. *)
Inductive SystemState := normal | merged.

Definition SystemState_eqb (a b : SystemState) : bool :=
  match a, b with
  | normal, normal | merged, merged => true
  | _, _ => false
  end.

(** The result of [canvas.getContext ('2d')] is a context or null. *)
Inductive CanvasRenderingContext2D := Context2D.

Section Textures.
Context `{Host}.

(** The image data read back after [fillRect (0, 0, w, h)] with an
    opaque fill style: every pixel is that colour with alpha 255. *)
Definition fillRect (colorHex : string) (w h : nat) : list Z :=
  let '(r, g, b) := parseColor colorHex in
  concat (replicate (w * h) [r; g; b; 255%Z]).

(** [data[i]] read as a number; an index outside the array yields
    [undefined], which arithmetic turns into NaN. *)
Definition readChannel (data : list Z) (i : nat) : float :=
  match data !! i with
  | Some v => PrimFloat.of_uint63 (Uint63.of_Z v)
  | None => PrimFloat.nan
  end.

Definition setRGB (i : nat) (r g b : Z) (data : list Z) : list Z :=
  <[(i + 2)%nat := b]> (<[(i + 1)%nat := g]> (<[i := r]> data)).

(** The body of the two nested loops of [createPlanetTexture], for
    the texel in column [x] of row [y]. *)
Definition paintTexel (name : string) (size y x : nat) (data : list Z) : list Z :=
  let ny := of_nat y / of_nat size in
  let nx := of_nat x / of_nat size in
  let i := ((y * size + x) * 4)%nat in
  let noiseVal := noise3D (nx * 3) (ny * 3) 0 in
  if String.eqb name "Jupiter" then
    let turbulence := noise3D (nx * 10) (ny * 10) 0 * 0.05 in
    let noiseVal := noise3D (nx * 3) (ny * 20 + turbulence) 0 in
    if js_gt noiseVal 0.3 then setRGB i 210 180 140 data
    else if js_lt noiseVal (-0.2) then setRGB i 160 100 60 data
    else setRGB i 190 150 110 data
  else if String.eqb name "Earth" then
    let data :=
      if js_gt noiseVal 0.15 then setRGB i 40 140 60 data
      else setRGB i 10 40 120 data in
    let cloudNoise := noise3D (nx * 6) (ny * 6) 10 in
    if js_gt cloudNoise 0.5 then setRGB i 255 255 255 data else data
  else
    let varC := noiseVal * 20 in
    let data := <[i := toUint8Clamp (Math_max 0 (Math_min 255 (readChannel data i + varC)))]> data in
    let data := <[(i + 1)%nat := toUint8Clamp (Math_max 0 (Math_min 255 (readChannel data (i + 1) + varC)))]> data in
    <[(i + 2)%nat := toUint8Clamp (Math_max 0 (Math_min 255 (readChannel data (i + 2) + varC)))]> data.

Definition paintRow (name : string) (size y : nat) (data : list Z) : list Z :=
  fold_left (fun data x => paintTexel name size y x data) (seq 0 size) data.

Definition paintRows (name : string) (size : nat) (data : list Z) : list Z :=
  fold_left (fun data y => paintRow name size y data) (seq 0 size) data.

Definition createPlanetTexture (ctx : option CanvasRenderingContext2D)
    (name colorHex : string) : Texture :=
  let size := 512%nat in
  match ctx with
  | None => EmptyTexture
  | Some _ =>
      let data := fillRect colorHex size size in
      CanvasTexture (mkCanvas size size (ImageData (paintRows name size data)))
  end.

Definition createGlowTexture (ctx : option CanvasRenderingContext2D) : Texture :=
  match ctx with
  | None => EmptyTexture
  | Some _ =>
      CanvasTexture (mkCanvas 64 64
        (RadialGradientFill 32 32 0 32 32 32
           [ (0, "rgba(255, 255, 255, 1)");
             (0.2, "rgba(255, 220, 100, 0.6)");
             (1, "rgba(0, 0, 0, 0)") ]))
  end.

Definition createRingTexture (ctx : option CanvasRenderingContext2D) : Texture :=
  match ctx with
  | None => EmptyTexture
  | Some _ =>
      CanvasTexture (mkCanvas 256 2
        (LinearGradientFill 0 0 256 0
           [ (0.0, "rgba(0,0,0,0)");
             (0.2, "rgba(200,180,150,0.8)");
             (0.8, "rgba(180,170,140,0.5)");
             (1.0, "rgba(0,0,0,0)") ]))
  end.
End Textures.

(** [group.userData] *)
Record UserData := mkUserData {
  angle : float; dist : float; speed : float; name : string; originalScale : float
}.

(** A planet's group: the transform the loop drives, its user data and
    the [rotation.y] of its mesh. *)
Record Group := mkGroup {
  position : Vector3 float;
  scale : Vector3 float;
  userData : UserData;
  mesh_rotation_y : float
}.

Record Sun := mkSun {
  sun_scale : Vector3 float;
  sun_rotation_y : float;
  sunSprite_visible : bool
}.

Record Scene := mkScene {
  sunUniforms_time : float;
  sun : Sun;
  planetGroups : list Group;
  orbitOpacity : list float
}.

Section Animation.
Context `{Host}.

(** One pass of [PLANETS.forEach]; [random] is the value [Math.random ()]
    returned for this planet. *)
Definition createGroup (p : Planet) (random : float) : Group :=
  let orbitRadius := p_dist p in
  let angle := random * Math_PI * 2 in
  {| position := mkVector3 (Math_cos angle * orbitRadius) 0 (Math_sin angle * orbitRadius);
     scale := mkVector3 1 1 1;
     userData := {| angle := angle; dist := orbitRadius;
                    speed := p_speed p * CONFIG_speedFactor;
                    name := p_name p; originalScale := 1 |};
     mesh_rotation_y := 0 |}.

(** The scene as built on mount; [random i] is the draw for planet [i]. *)
Definition initScene (random : nat -> float) : Scene :=
  {| sunUniforms_time := 0;
     sun := {| sun_scale := mkVector3 1 1 1; sun_rotation_y := 0; sunSprite_visible := true |};
     planetGroups := imap (fun i p => createGroup p (random i)) PLANETS;
     orbitOpacity := map (fun _ => 0.2) PLANETS |}.

(** The body of [planetGroups.forEach] in [animate]. *)
Definition animateGroup (isMerged : bool) (group : Group) : Group :=
  let speed := speed (userData group) in
  let dist := dist (userData group) in
  let name := name (userData group) in
  if isMerged then
    if String.eqb name "Earth" then
      let targetPos := mkVector3 0 0 0 in
      let targetScale := 6.0 in
      {| position := lerp (position group) targetPos 0.05;
         scale := lerp (scale group) (mkVector3 targetScale targetScale targetScale) 0.05;
         userData := userData group;
         mesh_rotation_y := mesh_rotation_y group + 0.02 |}
    else
      let targetPos := mkVector3 0 0 0 in
      {| position := lerp (position group) targetPos 0.1;
         scale := lerp (scale group) (mkVector3 0.001 0.001 0.001) 0.1;
         userData := userData group;
         mesh_rotation_y := mesh_rotation_y group |}
  else
    let angle' := angle (userData group) + speed in
    let targetX := Math_cos angle' * dist in
    let targetZ := Math_sin angle' * dist in
    let targetPos := mkVector3 targetX 0 targetZ in
    {| position := lerp (position group) targetPos 0.05;
       scale := lerp (scale group) (mkVector3 1 1 1) 0.05;
       userData := {| angle := angle'; dist := dist; speed := speed; name := name;
                      originalScale := originalScale (userData group) |};
       mesh_rotation_y := mesh_rotation_y group + 0.005 |}.

(** One call of [animate]: [systemState] is [systemStateRef.current]
    and [now] is [performance.now ()]. *)
Definition animate (systemState : SystemState) (now : float) (s : Scene) : Scene :=
  let time := now * 0.001 in
  let isMerged := SystemState_eqb systemState merged in
  let targetSunScale := if isMerged then 0.001 else 1 in
  {| sunUniforms_time := time;
     sun := {| sun_scale := lerp (sun_scale (sun s))
                              (mkVector3 targetSunScale targetSunScale targetSunScale) 0.05;
               sun_rotation_y := sun_rotation_y (sun s) + 0.002;
               sunSprite_visible := negb isMerged |};
     planetGroups := map (animateGroup isMerged) (planetGroups s);
     orbitOpacity :=
       map (fun opacity =>
              let targetOpacity := if isMerged then 0 else 0.2 in
              MathUtils_lerp opacity targetOpacity 0.05)
           (orbitOpacity s) |}.

(** The scenes the running program can be in. *)
Inductive reachable : Scene -> Prop :=
| reachable_init random : reachable (initScene random)
| reachable_frame systemState now s :
    reachable s -> reachable (animate systemState now s).
End Animation.

End SolarSystem.

(* ================================================================== *)
(** ** App.tsx *)

Module App.
Import SolarSystem.

(** The component's two pieces of state. *)
Record State := mkState {
  systemState : SystemState;
  cameraEnabled : bool
}.

Definition init : State := {| systemState := normal; cameraEnabled := true |}.

(** [handleGestureChange]: the next value of [systemState]. *)
Definition handleGestureChange (isFist : bool) : SystemState :=
  if isFist then merged else normal.

(** The estimator hands [results] to the [onResults] it was given, which
    calls [handleGestureChange]; a handler that throws leaves the state as
    it was. *)
Definition deliver (results : HandController.Results) (s : State) : State :=
  match HandController.onResults results with
  | Some (_, isFist) =>
      {| systemState := handleGestureChange isFist; cameraEnabled := cameraEnabled s |}
  | None => s
  end.

(** The button's [onClick]: [setCameraEnabled (!cameraEnabled)]. *)
Definition toggleCamera (s : State) : State :=
  {| systemState := systemState s; cameraEnabled := negb (cameraEnabled s) |}.

(** The classifier as the rest of the program sees it: the state that
    [onResults] makes the application adopt for one hand, or for none. *)
Definition classify (hand : option (list HandController.NormalizedLandmark))
    : option SystemState :=
  '(_, isFist) ← HandController.onResults (option_map (fun h => [h]) hand);
  Some (handleGestureChange isFist).

End App.

(* ================================================================== *)
(** ** Vocabulary of the properties *)

Module Props.
Import HandController.

(** The four voting fingers as (tip, proximal joint) landmark indices:
    index, middle, ring and pinky.  The thumb (indices 1 to 4) is absent. *)
Definition trackedFingers : list (nat * nat) :=
  [(8, 6); (12, 10); (16, 14); (20, 18)].

(** The tip of finger [f] lies strictly lower in the image than its
    proximal joint. *)
Definition tipBelowJoint (hand : NormalizedLandmarkList) (f : nat * nat) : bool :=
  match hand !! f.1, hand !! f.2 with
  | Some tip, Some pip => PrimFloat.ltb (y pip) (y tip)
  | _, _ => false
  end.

Definition closedCount (hand : NormalizedLandmarkList) : nat :=
  length (List.filter (tipBelowJoint hand) trackedFingers).

(** The landmark indices the vote reads. *)
Definition votingIndices : list nat := [6; 8; 10; 12; 14; 16; 18; 20].

(** The centre of the scene, and a scale equal on the three axes. *)
Definition origin : THREE.Vector3 float := THREE.mkVector3 0%float 0%float 0%float.
Definition uniform (s : float) : THREE.Vector3 float := THREE.mkVector3 s s s.

(** The point at angle [a] of the circle of radius [d] in the plane of
    height 0. *)
Definition orbitPoint `{Host} (a d : float) : THREE.Vector3 float :=
  THREE.mkVector3 (Math_cos a * d)%float 0%float (Math_sin a * d)%float.

(** Two hands show the same vertical coordinate at landmark [i]. *)
Definition sameHeightAt (hand1 hand2 : NormalizedLandmarkList) (i : nat) : Prop :=
  y <$> hand1 !! i = y <$> hand2 !! i.


(** An ordinary number: neither NaN nor an infinity. *)
Definition finite (a : float) : bool :=
  negb (PrimFloat.is_nan a) && negb (PrimFloat.is_infinity a).

(** A smoothing factor strictly between 0 and 1. *)
Definition properFactor (f : float) : bool := PrimFloat.ltb 0 f && PrimFloat.ltb f 1.

(** The index in the image data of the first channel of the texel in
    column [x] of row [y]. *)
Definition texelIndex (size y x : nat) : nat := (y * size + x) * 4.

(** The four channels of the texel that starts at index [i]. *)
Definition pixelAt (data : list Z) (i : nat) : option (Z * Z * Z * Z) :=
  r ← data !! i; g ← data !! (i + 1); b ← data !! (i + 2); a ← data !! (i + 3);
  Some (r, g, b, a).

(** The alpha channel of the texel that starts at index [i] is 255. *)
Definition opaqueAt (i : nat) (data : list Z) : Prop :=
  data !! (i + 3)%nat = Some 255%Z.

Definition landGreen : Z * Z * Z * Z := (40, 140, 60, 255)%Z.
Definition waterBlue : Z * Z * Z * Z := (10, 40, 120, 255)%Z.
Definition opaqueWhite : Z * Z * Z * Z := (255, 255, 255, 255)%Z.

(** The colour rule for Earth as a function of the two noise samples:
    cloud above 0.5 wins, then land above 0.15, else water. *)
Definition earthTexel (primary cloud : float) : Z * Z * Z * Z :=
  if PrimFloat.ltb 0.5 cloud then opaqueWhite
  else if PrimFloat.ltb 0.15 primary then landGreen
  else waterBlue.

(** The two noise samples the Earth rule takes at a texel. *)
Definition primarySample `{Host} (size y x : nat) : float :=
  noise3D (of_nat x / of_nat size * 3)%float (of_nat y / of_nat size * 3)%float 0%float.
Definition cloudSample `{Host} (size y x : nat) : float :=
  noise3D (of_nat x / of_nat size * 6)%float (of_nat y / of_nat size * 6)%float 10%float.


(** A value a [Uint8ClampedArray] can hold. *)
Definition byte (v : Z) : Prop := (0 <= v <= 255)%Z.

(** The three colour bands of Jupiter as a function of the noise sample:
    light tan above 0.3, dark rust below -0.2, mid tan between. *)
Definition jupiterBand (n : float) : Z * Z * Z * Z :=
  if PrimFloat.ltb 0.3 n then (210, 180, 140, 255)%Z
  else if PrimFloat.ltb n (-0.2) then (160, 100, 60, 255)%Z
  else (190, 150, 110, 255)%Z.

(** The noise sample the Jupiter rule takes at a texel: the vertical
    coordinate is stretched by 20 and displaced by a twentieth of a second
    sample. *)
Definition jupiterSample `{Host} (size y x : nat) : float :=
  noise3D (of_nat x / of_nat size * 3)%float
    (of_nat y / of_nat size * 20
     + noise3D (of_nat x / of_nat size * 10) (of_nat y / of_nat size * 10) 0 * 0.05)%float
    0%float.

(** A colour channel of the base colour shifted by twenty times the noise
    sample, kept within 0..255 and stored as a byte. *)
Definition tinted (base : Z) (n : float) : Z :=
  toUint8Clamp
    (Math_max 0 (Math_min 255 (PrimFloat.of_uint63 (Uint63.of_Z base) + n * 20)))%float.

(** The texel a planet's texture shows in column [x] of row [y], given the
    texel [px] the filled canvas had there. *)
Definition texelColour `{Host} (name : string) (size y x : nat)
    (px : Z * Z * Z * Z) : Z * Z * Z * Z :=
  let '(r, g, b, a) := px in
  if String.eqb name "Jupiter" then
    let '(r', g', b', _) := jupiterBand (jupiterSample size y x) in (r', g', b', a)
  else if String.eqb name "Earth" then
    let '(r', g', b', _) := earthTexel (primarySample size y x) (cloudSample size y x) in
    (r', g', b', a)
  else
    let n := primarySample size y x in (tinted r n, tinted g n, tinted b n, a).

(** The shape of the scene while no fist has been reported: sun and
    planets at scale 1, glow sprite visible, orbit rings at opacity 0.2. *)
Definition atRest (s : SolarSystem.Scene) : Prop :=
  SolarSystem.sun_scale (SolarSystem.sun s) = uniform 1%float /\
  SolarSystem.sunSprite_visible (SolarSystem.sun s) = true /\
  Forall (fun g => SolarSystem.scale g = uniform 1%float) (SolarSystem.planetGroups s) /\
  Forall (fun opacity => opacity = 0.2%float) (SolarSystem.orbitOpacity s).

(** The three axes of a scale are equal. *)
Definition isUniform (v : THREE.Vector3 float) : Prop :=
  THREE.x v = THREE.y v /\ THREE.y v = THREE.z v.

(** A sequence of frames, each with the state and the clock it reads. *)
Definition playFrames `{Host} (frames : list (SolarSystem.SystemState * float))
    (s : SolarSystem.Scene) : SolarSystem.Scene :=
  fold_left (fun s frame => SolarSystem.animate frame.1 frame.2 s) frames s.

(** The number of orbiting frames in a sequence. *)
Definition orbitingFrames (frames : list (SolarSystem.SystemState * float)) : nat :=
  length (List.filter (fun frame => SolarSystem.SystemState_eqb frame.1 SolarSystem.normal) frames).

(** One step of the angle integrator on a group's user data. *)
Definition advanceAngle (u : SolarSystem.UserData) : SolarSystem.UserData :=
  {| SolarSystem.angle := (SolarSystem.angle u + SolarSystem.speed u)%float;
     SolarSystem.dist := SolarSystem.dist u;
     SolarSystem.speed := SolarSystem.speed u;
     SolarSystem.name := SolarSystem.name u;
     SolarSystem.originalScale := SolarSystem.originalScale u |}.

(** What a planet's row of [PLANETS] fixes of its group for good. *)
Definition fixedData (p : SolarSystem.Planet) : string * float * float :=
  (SolarSystem.p_name p, SolarSystem.p_dist p,
   (SolarSystem.p_speed p * SolarSystem.CONFIG_speedFactor)%float).

Definition fixedDataOf (g : SolarSystem.Group) : string * float * float :=
  (SolarSystem.name (SolarSystem.userData g), SolarSystem.dist (SolarSystem.userData g),
   SolarSystem.speed (SolarSystem.userData g)).

(** The detection loop can still run: a call of [detect] is suspended at
    its send, or the browser holds a frame callback. *)
Definition loopAlive (e : Effect) : bool :=
  sending e || match requested e with [] => false | _ :: _ => true end.

(** The loop waits in exactly one place: at a pending send, or at the one
    requested frame, whose handle is the one in [animationFrameId]. *)
Definition waiting (e : Effect) : Prop :=
  (sending e = true /\ requested e = []) \/
  (sending e = false /\ exists h, requested e = [h] /\ animationFrameId e = Some h).

End Props.

(* ================================================================== *)
(** ** Binary64 numbers as integers *)

(** To reason about rounding, a finite number is read as an integer: its
    value times [2 ^ 2148].  The smallest positive number is [2 ^ -1074],
    so every number, and every exact product of two numbers, is a whole
    multiple of [2 ^ -2148]. *)
Module Binary64.

Definition K : Z := 2148.

(** The weight of exponent [e]. *)
Definition B (e : Z) : Z := (2 ^ (e + K))%Z.



Definition isFinite (x : spec_float) : bool :=
  match x with
  | S754_zero _ | S754_finite _ _ _ => true
  | _ => false
  end.










End Binary64.

(** Inputs on which the statements below are evaluated. *)
Module Samples.
Import HandController SolarSystem.

(** Heights with index, middle and ring finger curled and the pinky
    stretched. *)
Definition curledHeight (i : nat) : float :=
  if (i =? 8)%nat || (i =? 12)%nat || (i =? 16)%nat then 0.7%float
  else if (i =? 20)%nat then 0.4%float else 0.5%float.

Definition threeCurled : list NormalizedLandmark :=
  map (fun i => mkLandmark 0.5%float (curledHeight i) 0%float) (seq 0 21).

(** The same heights at the eight voting landmarks, everything else
    different. *)
Definition threeCurledElsewhere : list NormalizedLandmark :=
  map (fun i => mkLandmark 0.9%float
                  (if Nat.even i && (6 <=? i)%nat then curledHeight i else 0.1%float)
                  0.3%float)
      (seq 0 21).

(** A host whose noise field answers 0.2 for the surface and 0.6 for the
    cloud layer; its trigonometry is a stand-in. *)
Definition flatHost : Host :=
  {| Math_cos := fun _ => 1%float;
     Math_sin := fun _ => 0%float;
     noise3D := fun _ _ c => if PrimFloat.eqb c 10 then 0.6%float else 0.2%float;
     parseColor := fun _ => (34, 119, 255)%Z |}.

(** The application after the estimator reported a fist. *)
Definition afterFist : App.State := App.deliver (Some [threeCurled]) App.init.

(** One merged frame followed by [n] orbiting frames. *)
Definition mergeThenOrbit (n : nat) : Scene :=
  Nat.iter n (@animate flatHost normal 0%float)
    (@animate flatHost merged 0%float (@initScene flatHost (fun _ => 0%float))).


(** All four fingers curled. *)
Definition fourCurled : list NormalizedLandmark :=
  map (fun i => mkLandmark 0.5%float
                  (if (i =? 20)%nat then 0.7%float else curledHeight i) 0%float)
      (seq 0 21).

(** A hand cut short after landmark 19. *)
Definition shortHand : list NormalizedLandmark := take 20 threeCurled.

(** A merged frame, two orbiting frames, a merged frame, an orbiting
    frame. *)
Definition mixedFrames : list (SystemState * float) :=
  [(merged, 0%float); (normal, 16%float); (normal, 33%float); (merged, 50%float);
   (normal, 66%float)].

End Samples.

(* ================================================================== *)
(** ** Facts about binary64 comparison *)

Lemma SFcompare_Eq_sym (a b : spec_float) :
  SFcompare a b = Some Eq -> SFcompare b a = Some Eq.
Proof.
  destruct a as [sa|sa| |sa ma ea], b as [sb|sb| |sb mb eb]; simpl; try congruence;
    try (destruct sa; congruence); try (destruct sb; congruence);
    try (destruct sa, sb; congruence).
  destruct sa, sb; try congruence.
  - destruct (Z.compare_spec ea eb) as [->| |]; try congruence.
    rewrite Z.compare_refl. intros E.
    assert (E' : (ma ?= mb)%positive = Eq)
      by (unfold Pos.compare; destruct (Pos.compare_cont Eq ma mb); simpl in E; congruence).
    apply Pos.compare_eq in E'. subst. now rewrite Pos.compare_cont_refl.
  - destruct (Z.compare_spec ea eb) as [->| |]; try congruence.
    rewrite Z.compare_refl. intros E.
    assert (E' : (ma ?= mb)%positive = Eq) by (unfold Pos.compare; congruence).
    apply Pos.compare_eq in E'. subst. now rewrite Pos.compare_cont_refl.
Qed.

(** Numbers that compare equal (this includes -0 against +0) are not
    strictly ordered either way. *)
Lemma eqb_not_ltb (a b : float) :
  PrimFloat.eqb a b = true -> PrimFloat.ltb b a = false.
Proof.
  rewrite FloatAxioms.eqb_spec, FloatAxioms.ltb_spec. unfold SFeqb, SFltb. intros E.
  destruct (SFcompare (Prim2SF a) (Prim2SF b)) as [[]|] eqn:C; try discriminate.
  now rewrite (SFcompare_Eq_sym _ _ C).
Qed.

(** A number is never strictly greater than itself. *)
Lemma ltb_irrefl (a : float) : PrimFloat.ltb a a = false.
Proof.
  rewrite FloatAxioms.ltb_spec. unfold SFltb.
  destruct (SFcompare (Prim2SF a) (Prim2SF a)) as [[]|] eqn:C; try reflexivity.
  destruct (Prim2SF a) as [s|s| |s m e]; simpl in C; try discriminate.
  - destruct s; discriminate.
  - destruct s; rewrite Z.compare_refl, Pos.compare_cont_refl in C; discriminate.
Qed.

(* ================================================================== *)
(** ** The classifier *)

Section Classifier.
Import HandController Props SolarSystem.

Lemma isFingerClosed_heights (hand1 hand2 : NormalizedLandmarkList) (tipIdx pipIdx : nat) :
  sameHeightAt hand1 hand2 tipIdx -> sameHeightAt hand1 hand2 pipIdx ->
  isFingerClosed hand1 tipIdx pipIdx = isFingerClosed hand2 tipIdx pipIdx.
Proof.
  unfold sameHeightAt, isFingerClosed. intros Ht Hp.
  destruct (hand1 !! tipIdx), (hand2 !! tipIdx); simpl in *; try congruence.
  destruct (hand1 !! pipIdx), (hand2 !! pipIdx); simpl in *; congruence.
Qed.

Lemma isFingerClosed_tipBelowJoint (hand : NormalizedLandmarkList) (tipIdx pipIdx : nat) :
  (tipIdx < length hand)%nat -> (pipIdx < length hand)%nat ->
  isFingerClosed hand tipIdx pipIdx = Some (tipBelowJoint hand (tipIdx, pipIdx)).
Proof.
  intros Ht Hp. unfold isFingerClosed, tipBelowJoint. cbn [fst snd].
  destruct (lookup_lt_is_Some_2 hand tipIdx Ht) as [t ->].
  destruct (lookup_lt_is_Some_2 hand pipIdx Hp) as [p ->].
  reflexivity.
Qed.

(** On a full landmark set the handler does not throw, and it reports a
    fist exactly when the vote reaches three. *)
Lemma onResults_vote (hand : NormalizedLandmarkList) (others : list NormalizedLandmarkList) :
  length hand = 21%nat ->
  exists text, onResults (Some (hand :: others)) = Some (text, (3 <=? closedCount hand)%nat).
Proof.
  intros L. unfold onResults.
  rewrite !isFingerClosed_tipBelowJoint by lia. simpl.
  unfold closedCount, trackedFingers. simpl.
  destruct (tipBelowJoint hand (8, 6)), (tipBelowJoint hand (12, 10)),
    (tipBelowJoint hand (16, 14)), (tipBelowJoint hand (20, 18)); simpl; eauto.
Qed.

(** C1. On every set of 21 landmarks the classifier answers FIST
    ([merged]) if and only if at least three of the four tracked fingers
    (thumb excluded) have their tip strictly below their proximal joint;
    with at most two such fingers it answers OPEN ([normal]); a finger
    whose two heights are the same number, or compare equal, is not
    counted; and with no hand it answers OPEN. *)
Theorem classify_fist_iff_three_closed (hand : NormalizedLandmarkList) :
  length hand = 21%nat ->
  (App.classify (Some hand) = Some merged <-> (3 <= closedCount hand)%nat) /\
  ((closedCount hand <= 2)%nat -> App.classify (Some hand) = Some normal) /\
  (forall f tip pip,
      hand !! f.1 = Some tip -> hand !! f.2 = Some pip ->
      y tip = y pip \/ PrimFloat.eqb (y tip) (y pip) = true ->
      tipBelowJoint hand f = false) /\
  App.classify None = Some normal.
Proof.
  intros L.
  destruct (onResults_vote hand [] L) as [text E].
  remember (3 <=? closedCount hand)%nat as fist eqn:V. symmetry in V.
  unfold App.classify. cbn [option_map]. rewrite E. simpl.
  split; [|split; [|split]].
  - destruct fist; [apply Nat.leb_le in V | apply Nat.leb_gt in V]; simpl; split;
      intros; (lia || discriminate || reflexivity).
  - intros G. destruct fist; [apply Nat.leb_le in V; lia | reflexivity].
  - intros f tip pip Ht Hp Heq. unfold tipBelowJoint. rewrite Ht, Hp.
    destruct Heq as [->|Heq]; [apply ltb_irrefl | now apply eqb_not_ltb].
  - reflexivity.
Qed.

(** C9. The answer depends only on the heights of landmarks 6, 8, 10,
    12, 14, 16, 18 and 20 of the first hand: two results whose first
    hands agree there get the same answer, whatever their other
    coordinates, other landmarks and other hands. *)
Theorem classify_reads_only_eight_heights
    (hand1 hand2 : NormalizedLandmarkList) (others1 others2 : list NormalizedLandmarkList) :
  Forall (sameHeightAt hand1 hand2) votingIndices ->
  onResults (Some (hand1 :: others1)) = onResults (Some (hand2 :: others2)) /\
  App.classify (Some hand1) = App.classify (Some hand2).
Proof.
  intros A. unfold votingIndices in A.
  repeat (apply Forall_cons_1 in A; destruct A as [? A]).
  assert (E : forall o1 o2, onResults (Some (hand1 :: o1)) = onResults (Some (hand2 :: o2))).
  { intros o1 o2. unfold onResults.
    rewrite (isFingerClosed_heights hand1 hand2 8 6),
      (isFingerClosed_heights hand1 hand2 12 10),
      (isFingerClosed_heights hand1 hand2 16 14),
      (isFingerClosed_heights hand1 hand2 20 18) by assumption.
    reflexivity. }
  split; [apply E|]. unfold App.classify. cbn [option_map]. now rewrite (E [] []).
Qed.
End Classifier.

(* ================================================================== *)
(** ** The frame loop *)

Section Frames.
Context `{Host}.
Import THREE SolarSystem Props.
Local Open Scope float_scope.

Lemma animate_planetGroups_lookup (systemState : SystemState) (now : float)
    (s : Scene) (i : nat) :
  planetGroups (animate systemState now s) !! i =
  animateGroup (SystemState_eqb systemState merged) <$> planetGroups s !! i.
Proof. unfold animate. cbn [planetGroups]. apply list_lookup_fmap. Qed.

(** C2. A frame run in the merged state drives the sun's scale towards
    0.001 on every axis and hides its glow sprite; drives the group named
    Earth towards the origin and towards scale 6, turning its mesh by 0.02,
    more than the 0.005 of an orbiting frame; and drives every other group
    towards the origin and towards scale 0.001. *)
Theorem merged_frame_targets (now : float) (s : Scene) :
  let s' := animate merged now s in
  (sun_scale (sun s') = lerp (sun_scale (sun s)) (uniform 0.001) 0.05 /\
   sunSprite_visible (sun s') = false) /\
  (forall i g, planetGroups s !! i = Some g ->
     exists g', planetGroups s' !! i = Some g' /\
       (name (userData g) = "Earth" ->
          position g' = lerp (position g) origin 0.05 /\
          scale g' = lerp (scale g) (uniform 6) 0.05 /\
          mesh_rotation_y g' = mesh_rotation_y g + 0.02 /\
          mesh_rotation_y (animateGroup false g) = mesh_rotation_y g + 0.005) /\
       (name (userData g) <> "Earth" ->
          position g' = lerp (position g) origin 0.1 /\
          scale g' = lerp (scale g) (uniform 0.001) 0.1)) /\
  ((0 <? 0.001) = true /\ (0.001 <? 0.01) = true /\ (1 <? 6) = true /\ (0.005 <? 0.02) = true).
Proof.
  cbn zeta. split; [split; reflexivity|]. split; [|repeat split; reflexivity].
  intros i g Hg. exists (animateGroup true g). split.
  - rewrite animate_planetGroups_lookup, Hg. reflexivity.
  - unfold animateGroup at 1 2 3 5 6.
    destruct (String.eqb_spec (name (userData g)) "Earth") as [E|E].
    + split; [intros _ | congruence]. repeat split; reflexivity.
    + split; [congruence | intros _]. split; reflexivity.
Qed.

(** C3. An orbiting frame advances a group's angle by its speed and
    drives it towards the point of its orbit at the new angle; the speed
    of a group is its planet's constant times the one speed factor.  With
    constant -0.01, factor 0.3 and angle 0 the new angle is -0.003 and
    the point is (cos(-0.003) * dist, 0, sin(-0.003) * dist). *)
Theorem open_frame_advances_orbit (now : float) (s : Scene) (i : nat) (g : Group) :
  planetGroups s !! i = Some g ->
  let g' := animateGroup false g in
  planetGroups (animate normal now s) !! i = Some g' /\
  angle (userData g') = angle (userData g) + speed (userData g) /\
  position g' = lerp (position g) (orbitPoint (angle (userData g')) (dist (userData g))) 0.05 /\
  (forall p random,
     speed (userData (createGroup p random)) = p_speed p * CONFIG_speedFactor /\
     dist (userData (createGroup p random)) = p_dist p) /\
  CONFIG_speedFactor = 0.3 /\
  (speed (userData g) = -0.01 * 0.3 -> angle (userData g) = 0 ->
     angle (userData g') = -0.003 /\
     position g' =
       lerp (position g)
         (mkVector3 (Math_cos (-0.003) * dist (userData g)) 0
                    (Math_sin (-0.003) * dist (userData g))) 0.05).
Proof.
  intros Hg. cbn zeta.
  split; [rewrite animate_planetGroups_lookup, Hg; reflexivity|].
  split; [reflexivity|]. split; [reflexivity|]. split; [split; reflexivity|].
  split; [reflexivity|].
  intros Hs Ha.
  assert (E : angle (userData (animateGroup false g)) = -0.003).
  { unfold animateGroup. cbn [userData angle]. rewrite Hs, Ha. reflexivity. }
  split; [exact E|].
  change (position (animateGroup false g))
    with (lerp (position g)
            (orbitPoint (angle (userData (animateGroup false g))) (dist (userData g))) 0.05).
  rewrite E. reflexivity.
Qed.

(** C6. A frame run in the merged state leaves every group's angle as it
    was (indeed all of its user data); only an orbiting frame writes it. *)
Theorem merged_frame_freezes_angle (now : float) (s : Scene) :
  (forall g, userData (animateGroup true g) = userData g) /\
  map (fun g => angle (userData g)) (planetGroups (animate merged now s)) =
  map (fun g => angle (userData g)) (planetGroups s).
Proof.
  assert (U : forall g, userData (animateGroup true g) = userData g).
  { intros g. unfold animateGroup. destruct (String.eqb _ _); reflexivity. }
  split; [exact U|].
  unfold animate. cbn [planetGroups SystemState_eqb]. rewrite map_map.
  apply map_ext. intros g. now rewrite U.
Qed.

(** Interpolating height 0 towards height 0 gives 0, at both factors the
    loop uses. *)
Lemma animateGroup_keeps_plane (isMerged : bool) (g : Group) :
  y (position g) = 0 -> y (position (animateGroup isMerged g)) = 0.
Proof.
  intros Hy. unfold animateGroup.
  destruct isMerged; [destruct (String.eqb _ _)|];
    cbn [position lerp y]; rewrite Hy; reflexivity.
Qed.

(** C10. In every scene the program can reach, in either state, every
    planet group sits at height 0: it is placed there, every target is
    at height 0, and interpolation between two heights 0 is 0. *)
Theorem groups_stay_in_orbital_plane (s : Scene) :
  reachable s -> Forall (fun g => y (position g) = 0) (planetGroups s).
Proof.
  induction 1 as [random | systemState now s R IH].
  - unfold initScene, PLANETS. cbn [planetGroups imap]. repeat constructor.
  - unfold animate. cbn [planetGroups]. apply Forall_fmap.
    eapply Forall_impl; [exact IH|]. intros g Hy. now apply animateGroup_keeps_plane.
Qed.
End Frames.

Section FrameWitnesses.
Import THREE SolarSystem Props Samples.
Local Open Scope float_scope.

Lemma classify_fist_iff_three_closed_witness :
  App.classify (Some threeCurled) = Some merged /\ closedCount threeCurled = 3%nat.
Proof.
  destruct (classify_fist_iff_three_closed threeCurled eq_refl) as [[_ W] _].
  split; [apply W; vm_compute; lia | reflexivity].
Defined.

Lemma classify_reads_only_eight_heights_witness :
  HandController.onResults (Some [threeCurled]) =
  HandController.onResults (Some [threeCurledElsewhere; threeCurled]) /\
  App.classify (Some threeCurled) = App.classify (Some threeCurledElsewhere).
Proof.
  apply (classify_reads_only_eight_heights threeCurled threeCurledElsewhere [] [threeCurled]).
  repeat constructor.
Defined.

Lemma merged_frame_targets_witness :
  exists g', planetGroups (mergeThenOrbit 0) !! 2%nat = Some g' /\
    scale g' = lerp (uniform 1) (uniform 6) 0.05 /\
    mesh_rotation_y g' = 0 + 0.02.
Proof.
  destruct (@merged_frame_targets flatHost 0 (@initScene flatHost (fun _ => 0)))
    as (_ & W & _).
  destruct (W 2%nat _ eq_refl) as (g' & L & E & _).
  exists g'. split; [exact L|].
  destruct (E eq_refl) as (_ & Es & Er & _). split; [exact Es | exact Er].
Defined.

Lemma open_frame_advances_orbit_witness :
  let g := @createGroup flatHost (mkPlanet "Earth" 3.8 70 (-0.01) "#2277ff" "Terrestrial" false) 0 in
  angle (userData g) = 0 /\
  angle (userData (@animateGroup flatHost false g)) = -0.003.
Proof.
  cbn zeta. split; [reflexivity|].
  destruct (@open_frame_advances_orbit flatHost 0 (@initScene flatHost (fun _ => 0)) 2%nat _ eq_refl)
    as (_ & _ & _ & _ & _ & W).
  apply W; reflexivity.
Defined.

Lemma groups_stay_in_orbital_plane_witness :
  Forall (fun g => y (position g) = 0) (planetGroups (mergeThenOrbit 3)).
Proof.
  apply (@groups_stay_in_orbital_plane flatHost).
  unfold mergeThenOrbit. cbn [Nat.iter]. repeat constructor.
Defined.
End FrameWitnesses.

(* ================================================================== *)
(** ** Rounding in binary64 *)

(** The operations of the format, as [SpecFloat] defines them, return a
    finite number nearest to the exact result, or an infinity when the
    exact result lies beyond every finite number. *)

Section Rounding.
Import Binary64.
Local Open Scope Z_scope.






































Lemma SFcompare_refl_finite (x : spec_float) :
  isFinite x = true -> SFcompare x x = Some Eq.
Proof.
  destruct x as [s|s| |s m e]; try discriminate; intros _; cbn [SFcompare]; [reflexivity|].
  rewrite Z.compare_refl, Pos.compare_cont_refl. destruct s; reflexivity.
Qed.



Section Order.
Variables a b : float.
Hypothesis Fa : Props.finite a = true.
Hypothesis Fb : Props.finite b = true.




End Order.



End Rounding.

(* ================================================================== *)
(** ** Interpolation *)

Section Interpolation.
Import THREE SolarSystem Props Samples.
Local Open Scope float_scope.





(** The same in a run of the program: after one merged frame and 700
    orbiting frames the sun's scale has stopped short of its target 1 and
    the opacity of the orbit rings short of its target 0.2, and further
    orbiting frames leave both where they are. *)
Lemma sun_scale_stalls_short_of_one :
  let s := mergeThenOrbit 700 in
  let s' := @animate flatHost normal 0 s in
  (x (sun_scale (sun s)) =? 1) = false /\
  sun_scale (sun s') = sun_scale (sun s) /\
  forallb (fun opacity => opacity =? 0.2) (orbitOpacity s) = false /\
  orbitOpacity s' = orbitOpacity s.
Proof. vm_compute. repeat split; reflexivity. Qed.

(** Why the factor is bounded: with a factor close to 1, which the loop
    does not use, one step lands on the target. *)
Lemma lerp_with_large_factor_snaps :
  properFactor 0.9 = true /\ (1 =? next_up 1) = false /\
  (lerp1 1 (next_up 1) 0.9 =? next_up 1) = true.
Proof. repeat split; reflexivity. Qed.

(** Why the difference has to be finite: from [1e308] towards [-1e308]
    the difference overflows, the step yields an infinity and the step
    after it NaN. *)
Lemma lerp_overflows :
  finite 1e308 = true /\ finite (-1e308) = true /\
  lerp1 1e308 (-1e308) 0.05 = neg_infinity /\
  is_nan (lerp1 (lerp1 1e308 (-1e308) 0.05) (-1e308) 0.05) = true.
Proof. repeat split; reflexivity. Qed.

(** [MathUtils.lerp], which the loop applies to the opacity of the orbit
    rings, computes [(1 - t) * x + t * y] and is not covered: it can move
    a value off a target it is on. *)
Lemma MathUtils_lerp_leaves_target :
  MathUtils_lerp 6 6 0.05 = 5.999999999999999 /\
  (MathUtils_lerp 6 6 0.05 <? 6) = true.
Proof. split; reflexivity. Qed.
End Interpolation.

(* ================================================================== *)
(** ** Stopping the camera *)

Section Camera.
Import SolarSystem Samples.

(** The camera button changes [cameraEnabled] and nothing else. *)
Lemma toggleCamera_systemState (s : App.State) :
  App.systemState (App.toggleCamera s) = App.systemState s.
Proof. reflexivity. Qed.

(** C5. Stopping the camera is meant to put the scene back into the
    orbiting state.  In the program it does not: after a fist was
    reported with the camera shown, the click that hides the camera leaves
    the state [merged]. *)
Theorem stop_camera_leaves_merged :
  App.systemState afterFist = merged /\
  App.cameraEnabled afterFist = true /\
  App.cameraEnabled (App.toggleCamera afterFist) = false /\
  App.systemState (App.toggleCamera afterFist) = merged.
Proof. repeat split; reflexivity. Qed.
End Camera.

(* ================================================================== *)
(** ** The detection loop and its cleanup *)

Section Lifecycle.
Import HandController Props.

Lemma requestAnimationFrame_waiting (e : Effect) :
  sending e = false -> requested e = [] -> waiting (requestAnimationFrame e).
Proof.
  intros S R. right. unfold requestAnimationFrame; cbn. rewrite R. eauto.
Qed.

Lemma detect_waiting (videoReady : bool) (e : Effect) :
  sending e = false -> requested e = [] -> waiting (detect videoReady e).
Proof.
  intros S R. unfold detect. destruct videoReady.
  - left. cbn. auto.
  - now apply requestAnimationFrame_waiting.
Qed.

(** The browser's steps keep the loop waiting in one place. *)
Lemma tick_waiting (e : Effect) (t : Tick) : waiting e -> waiting (tick e t).
Proof.
  intros W. destruct t as [|h vr]; cbn [tick].
  - unfold sendSettles. destruct W as [[S R]|[S W]]; rewrite S.
    + apply requestAnimationFrame_waiting; [reflexivity | exact R].
    + right. auto.
  - unfold frameFires. destruct W as [[S R]|[S (h0 & R & I)]]; rewrite R.
    + rewrite bool_decide_eq_false_2 by (apply not_elem_of_nil). left. auto.
    + destruct (decide (h = h0)) as [->|N].
      * rewrite bool_decide_eq_true_2 by (apply list_elem_of_singleton; reflexivity).
        apply detect_waiting; cbn; [exact S|]. now rewrite Nat.eqb_refl.
      * rewrite bool_decide_eq_false_2
          by (intros E; apply list_elem_of_singleton in E; congruence).
        right. eauto.
Qed.

Lemma tick_closed (e : Effect) (t : Tick) : closed (tick e t) = closed e.
Proof.
  destruct t as [|h vr]; cbn [tick].
  - unfold sendSettles. destruct (sending e); reflexivity.
  - unfold frameFires, detect. destruct (bool_decide _); [|reflexivity].
    destruct vr; reflexivity.
Qed.

Lemma ticks_waiting (ts : list Tick) (e : Effect) :
  waiting e -> waiting (ticks ts e) /\ closed (ticks ts e) = closed e.
Proof.
  unfold ticks. revert e. induction ts as [|t ts IH]; intros e W; [now split|].
  cbn [fold_left]. destruct (IH (tick e t) (tick_waiting e t W)) as [W' C].
  split; [exact W'|]. now rewrite C, tick_closed.
Qed.

Lemma waiting_loopAlive (e : Effect) : waiting e -> loopAlive e = true.
Proof.
  unfold loopAlive. intros [[-> _]|[_ (h & -> & _)]]; [reflexivity|].
  apply orb_true_r.
Qed.

(** With no send pending and no frame requested nothing happens any more. *)
Lemma ticks_idle (ts : list Tick) (e : Effect) :
  sending e = false -> requested e = [] -> ticks ts e = e.
Proof.
  intros S R. unfold ticks. induction ts as [|t ts IH]; [reflexivity|].
  cbn [fold_left]. replace (tick e t) with e; [exact IH|].
  destruct t as [|h vr]; cbn [tick].
  - unfold sendSettles. now rewrite S.
  - unfold frameFires. rewrite R. reflexivity.
Qed.

(** X5. Without a [Hands] class the effect reports the error and starts
    nothing.  Otherwise, whatever the browser did before the cleanup and
    does after it, the estimator stays closed, and the detection loop
    still runs exactly if a call of [detect] was suspended at its send
    when the cleanup ran: the cleanup cancels the frame whose handle is in
    [animationFrameId], and the resumed [detect] requests a new one. *)
Theorem cleanup_stops_loop_unless_sending
    (handsClassFound videoReady : bool) (before after : list Tick) :
  match useEffect handsClassFound videoReady with
  | (debugText, None) => handsClassFound = false /\ debugText = "AI Load Error"
  | (_, Some started) =>
      handsClassFound = true /\
      let e := ticks before started in
      let e' := ticks after (cleanup e) in
      closed e' = true /\ loopAlive e' = sending e
  end.
Proof.
  unfold useEffect. destruct handsClassFound; [|split; reflexivity].
  split; [reflexivity|]. cbn zeta.
  match goal with |- context [ticks before ?s] => set (started := s) end.
  assert (W0 : waiting started) by (apply detect_waiting; reflexivity).
  destruct (ticks_waiting before _ W0) as [W _].
  set (e := ticks before started) in *.
  destruct W as [[S R]|[S (h & R & I)]]; rewrite S.
  - assert (W' : waiting (cleanup e)).
    { left. unfold cleanup, cancelAnimationFrame.
      destruct (animationFrameId e); cbn; rewrite ?R; auto. }
    destruct (ticks_waiting after _ W') as [W'' C]. split.
    + rewrite C. reflexivity.
    + now apply waiting_loopAlive.
  - rewrite ticks_idle.
    + split; [reflexivity|]. unfold loopAlive, cleanup. rewrite I. cbn.
      rewrite S, R. cbn. now rewrite Nat.eqb_refl.
    + unfold cleanup. rewrite I. cbn. exact S.
    + unfold cleanup. rewrite I. cbn. rewrite R. cbn. now rewrite Nat.eqb_refl.
Qed.
End Lifecycle.

(* ================================================================== *)
(** ** Loops that write one cell at a time *)

(** A left fold whose steps each rewrite a small part of the state: what
    is observed of one part is decided by the last step that writes it. *)
Section LocalWrites.
Context {St K O : Type}.
Variables (f : St -> K -> St) (obs : St -> O).
Variables (Inv : St -> Prop) (dom hit : K -> Prop).
Hypothesis hit_dec : forall k, {hit k} + {~ hit k}.
Hypothesis inv_step : forall s k, dom k -> Inv s -> Inv (f s k).
Hypothesis frame : forall s k, dom k -> Inv s -> ~ hit k -> obs (f s k) = obs s.

Lemma fold_left_inv (ks : list K) (s : St) :
  Forall dom ks -> Inv s -> Inv (fold_left f ks s).
Proof using inv_step.
  revert s. induction ks as [|k ks IH]; intros s D I; [exact I|].
  apply Forall_cons_1 in D as [Dk D]. cbn. apply IH; auto.
Qed.

Lemma fold_left_untouched (ks : list K) (s : St) :
  Forall dom ks -> Inv s -> Forall (fun k => ~ hit k) ks ->
  obs (fold_left f ks s) = obs s.
Proof using inv_step frame.
  revert s. induction ks as [|k ks IH]; intros s D I N; [reflexivity|].
  apply Forall_cons_1 in D as [Dk D]. apply Forall_cons_1 in N as [Nk N].
  cbn. rewrite IH by auto. now apply frame.
Qed.

Variable v : O.
Hypothesis write : forall s k, dom k -> Inv s -> hit k -> obs (f s k) = v.

Lemma fold_left_last_writer (ks : list K) (s : St) :
  Forall dom ks -> Inv s -> Exists hit ks -> obs (fold_left f ks s) = v.
Proof using hit_dec inv_step frame write.
  induction ks as [|k ks IH] using rev_ind; intros D I E.
  - inversion E.
  - apply Forall_app in D as [D Dk]. apply Forall_cons_1 in Dk as [Dk _].
    rewrite fold_left_app. cbn.
    destruct (hit_dec k) as [Hk|Hk].
    + apply write; [exact Dk | now apply fold_left_inv | exact Hk].
    + rewrite frame; [| exact Dk | now apply fold_left_inv | exact Hk].
      apply IH; auto.
      apply Exists_app in E as [E|E]; [exact E|].
      apply Exists_cons in E as [E|E]; [contradiction | inversion E].
Qed.
End LocalWrites.

(* ================================================================== *)
(** ** Texture synthesis *)

Section TextureProofs.
Context `{Host}.
Import THREE SolarSystem Props.

Lemma texelIndex_inj (size y x y0 x0 : nat) :
  (x < size)%nat -> (x0 < size)%nat ->
  texelIndex size y x = texelIndex size y0 x0 -> y = y0 /\ x = x0.
Proof.
  unfold texelIndex. intros Hx Hx0 E.
  assert (Y : y = y0).
  { destruct (Nat.lt_trichotomy y y0) as [L|[Y|L]]; [exfalso | exact Y | exfalso].
    - assert ((y + 1) * size <= y0 * size)%nat by (apply Nat.mul_le_mono_r; lia). lia.
    - assert ((y0 + 1) * size <= y * size)%nat by (apply Nat.mul_le_mono_r; lia). lia. }
  subst y0. split; [reflexivity | lia].
Qed.

Ltac split_branches :=
  repeat match goal with
         | |- context [if ?b then _ else _] => destruct b
         end.

Lemma paintTexel_length (name : string) (size y x : nat) (data : list Z) :
  length (paintTexel name size y x data) = length data.
Proof.
  unfold paintTexel, setRGB. cbv zeta. split_branches; now rewrite ?length_insert.
Qed.

(** A texel's three writes stay inside its own colour channels. *)
Lemma paintTexel_frame (name : string) (size y x : nat) (data : list Z) (j : nat) :
  (j < texelIndex size y x \/ texelIndex size y x + 3 <= j)%nat ->
  paintTexel name size y x data !! j = data !! j.
Proof.
  unfold texelIndex, paintTexel, setRGB. cbv zeta. intros Hj.
  split_branches; now rewrite ?list_lookup_insert_ne by lia.
Qed.

Lemma paintTexel_other_pixel (name : string) (size y x y0 x0 : nat) (data : list Z) :
  texelIndex size y x <> texelIndex size y0 x0 ->
  pixelAt (paintTexel name size y x data) (texelIndex size y0 x0) =
  pixelAt data (texelIndex size y0 x0).
Proof.
  intros Hne. unfold pixelAt.
  rewrite !paintTexel_frame by (revert Hne; unfold texelIndex; lia).
  reflexivity.
Qed.

Lemma paintTexel_opaqueAt (name : string) (size y x y0 x0 : nat) (data : list Z) :
  opaqueAt (texelIndex size y0 x0) data ->
  opaqueAt (texelIndex size y0 x0) (paintTexel name size y x data).
Proof.
  unfold opaqueAt. intros <-. apply paintTexel_frame. unfold texelIndex. lia.
Qed.

Lemma paintTexel_earth (size y x : nat) (data : list Z) :
  opaqueAt (texelIndex size y x) data ->
  pixelAt (paintTexel "Earth" size y x data) (texelIndex size y x) =
  Some (earthTexel (primarySample size y x) (cloudSample size y x)).
Proof.
  intros A.
  assert (L : (texelIndex size y x + 3 < length data)%nat)
    by (apply lookup_lt_is_Some; rewrite A; eauto).
  unfold pixelAt. rewrite (paintTexel_frame _ _ _ _ _ (texelIndex size y x + 3)) by lia.
  rewrite A.
  unfold paintTexel, earthTexel, primarySample, cloudSample, js_gt, setRGB.
  change (String.eqb "Earth" "Jupiter") with false.
  change (String.eqb "Earth" "Earth") with true. cbv iota zeta.
  unfold texelIndex in *.
  set (i := ((y * size + x) * 4)%nat) in *.
  destruct (PrimFloat.ltb 0.5 _), (PrimFloat.ltb 0.15 _);
    repeat first
      [ rewrite list_lookup_insert_ne by lia
      | rewrite list_lookup_insert_eq by (rewrite ?length_insert; lia)
      | progress cbn [mbind option_bind] ];
    reflexivity.
Qed.

Lemma paintRow_opaqueAt (name : string) (size y y0 x0 : nat) (data : list Z) :
  opaqueAt (texelIndex size y0 x0) data ->
  opaqueAt (texelIndex size y0 x0) (paintRow name size y data).
Proof.
  intros A. unfold paintRow.
  apply (fold_left_inv _ (opaqueAt (texelIndex size y0 x0)) (fun _ => True)).
  - intros s k _. apply paintTexel_opaqueAt.
  - apply Forall_forall. trivial.
  - exact A.
Qed.

Lemma paintRow_other_row (name : string) (size y y0 x0 : nat) (data : list Z) :
  y <> y0 -> (x0 < size)%nat ->
  pixelAt (paintRow name size y data) (texelIndex size y0 x0) =
  pixelAt data (texelIndex size y0 x0).
Proof.
  intros Hy Hx0. unfold paintRow.
  apply (fold_left_untouched _ (fun d => pixelAt d (texelIndex size y0 x0))
           (fun _ => True) (fun x => (x < size)%nat) (fun _ => False)); trivial.
  - intros s x Hx _ _. apply paintTexel_other_pixel.
    intros E. apply texelIndex_inj in E; [tauto | lia | lia].
  - apply Forall_seq. intros; lia.
  - apply Forall_forall. tauto.
Qed.

(** After a row of the Earth texture is painted, each of its texels
    shows the colour its two noise samples call for. *)
Lemma paintRow_earth (size y x : nat) (data : list Z) :
  (x < size)%nat -> opaqueAt (texelIndex size y x) data ->
  pixelAt (paintRow "Earth" size y data) (texelIndex size y x) =
  Some (earthTexel (primarySample size y x) (cloudSample size y x)).
Proof.
  intros Hx A. unfold paintRow.
  apply (fold_left_last_writer _ (fun d => pixelAt d (texelIndex size y x))
           (opaqueAt (texelIndex size y x)) (fun k => (k < size)%nat) (fun k => k = x)).
  - intros k. apply Nat.eq_dec.
  - intros s k _. apply paintTexel_opaqueAt.
  - intros s k Hk _ Hne. apply paintTexel_other_pixel.
    intros E. apply texelIndex_inj in E; [tauto | lia | lia].
  - intros s k _ I ->. now apply paintTexel_earth.
  - apply Forall_seq. intros; lia.
  - exact A.
  - apply Exists_exists. exists x. split; [apply elem_of_seq; lia | reflexivity].
Qed.

Lemma paintRows_earth (size y x : nat) (data : list Z) :
  (x < size)%nat -> (y < size)%nat -> opaqueAt (texelIndex size y x) data ->
  pixelAt (paintRows "Earth" size data) (texelIndex size y x) =
  Some (earthTexel (primarySample size y x) (cloudSample size y x)).
Proof.
  intros Hx Hy A. unfold paintRows.
  apply (fold_left_last_writer _ (fun d => pixelAt d (texelIndex size y x))
           (opaqueAt (texelIndex size y x)) (fun _ => True) (fun k => k = y)).
  - intros k. apply Nat.eq_dec.
  - intros s k _. apply paintRow_opaqueAt.
  - intros s k _ _ Hne. now apply paintRow_other_row.
  - intros s k _ I ->. now apply paintRow_earth.
  - apply Forall_forall. trivial.
  - exact A.
  - apply Exists_exists. exists y. split; [apply elem_of_seq; lia | reflexivity].
Qed.

(** The filled canvas is opaque everywhere. *)
Lemma fillRect_opaque (colorHex : string) (w h k : nat) :
  (k < w * h)%nat -> fillRect colorHex w h !! (k * 4 + 3)%nat = Some 255%Z.
Proof.
  unfold fillRect. destruct (parseColor colorHex) as [[r g] b].
  generalize (w * h)%nat as n. intros n. revert k.
  induction n as [|n IH]; intros k Hk; [lia|].
  destruct k as [|k]; [reflexivity|].
  replace (S k * 4 + 3)%nat with (4 + (k * 4 + 3))%nat by lia.
  cbn [replicate concat]. rewrite (lookup_app_r [r; g; b; 255%Z]) by (cbn; lia).
  replace (4 + (k * 4 + 3) - length [r; g; b; 255%Z])%nat with (k * 4 + 3)%nat by (cbn; lia).
  apply IH. lia.
Qed.

(** C7. In the texture built for Earth, every texel is opaque white
    where the cloud sample exceeds 0.5, and otherwise green where the
    primary sample exceeds 0.15 and blue where it does not.  A primary
    sample of 0.2 selects green, and a cloud sample of 0.6 on top of it
    gives white. *)
Theorem earth_texels_follow_noise (colorHex : string) (x y : nat) :
  (x < 512)%nat -> (y < 512)%nat ->
  exists data,
    createPlanetTexture (Some Context2D) "Earth" colorHex =
      CanvasTexture (mkCanvas 512 512 (ImageData data)) /\
    pixelAt data (texelIndex 512 y x) =
      Some (earthTexel (primarySample 512 y x) (cloudSample 512 y x)) /\
    (primarySample 512 y x = 0.2%float -> cloudSample 512 y x = 0.6%float ->
       pixelAt data (texelIndex 512 y x) = Some opaqueWhite) /\
    (js_gt 0.2 0.15 = true /\ js_gt 0.6 0.5 = true) /\
    (forall cloud, js_gt cloud 0.5 = false -> earthTexel 0.2 cloud = landGreen) /\
    (forall primary, earthTexel primary 0.6 = opaqueWhite).
Proof.
  intros Hx Hy. eexists. split; [reflexivity|].
  assert (P : pixelAt (paintRows "Earth" 512 (fillRect colorHex 512 512)) (texelIndex 512 y x) =
              Some (earthTexel (primarySample 512 y x) (cloudSample 512 y x))).
  { apply paintRows_earth; [exact Hx | exact Hy |].
    unfold opaqueAt, texelIndex. apply fillRect_opaque.
    assert ((y + 1) * 512 <= 512 * 512)%nat by (apply Nat.mul_le_mono_r; lia). lia. }
  split; [exact P|]. split; [|split; [|split]].
  - intros E1 E2. rewrite P, E1, E2. reflexivity.
  - split; reflexivity.
  - intros cloud C. unfold earthTexel. unfold js_gt in C. rewrite C. reflexivity.
  - intros primary. reflexivity.
Qed.

(** C8. When no 2D context can be had, each of the three synthesizers
    returns the empty texture instead of failing, and that is the only
    case in which it returns it: with a context each returns a canvas
    texture. *)
Theorem synthesizers_fall_back_to_empty_texture (name colorHex : string) :
  createPlanetTexture None name colorHex = EmptyTexture /\
  createGlowTexture None = EmptyTexture /\
  createRingTexture None = EmptyTexture /\
  (forall ctx, createPlanetTexture ctx name colorHex = EmptyTexture <-> ctx = None) /\
  (forall ctx, createGlowTexture ctx = EmptyTexture <-> ctx = None) /\
  (forall ctx, createRingTexture ctx = EmptyTexture <-> ctx = None).
Proof.
  repeat split; try reflexivity;
    try (destruct ctx; [discriminate | reflexivity]);
    intros ->; reflexivity.
Qed.
End TextureProofs.

Section TextureWitnesses.
Import THREE SolarSystem Props Samples.

Lemma earth_texels_follow_noise_witness :
  exists data,
    @createPlanetTexture flatHost (Some Context2D) "Earth" "#2277ff" =
      CanvasTexture (mkCanvas 512 512 (ImageData data)) /\
    pixelAt data (texelIndex 512 5 3) = Some opaqueWhite.
Proof.
  destruct (@earth_texels_follow_noise flatHost "#2277ff" 3 5) as (data & E & _ & W & _);
    [lia | lia |].
  exists data. split; [exact E | apply W; reflexivity].
Defined.

Lemma synthesizers_fall_back_to_empty_texture_witness :
  @createGlowTexture None = EmptyTexture /\
  @createPlanetTexture flatHost None "Earth" "#2277ff" = EmptyTexture.
Proof.
  destruct (@synthesizers_fall_back_to_empty_texture flatHost "Earth" "#2277ff")
    as (_ & _ & _ & P & G & _).
  split; [now apply G | now apply P].
Defined.
End TextureWitnesses.

(* ================================================================== *)
(** ** More on the classifier *)

Section ClassifierEdges.
Import HandController Props SolarSystem Samples.

Lemma isFingerClosed_Some_length (hand : NormalizedLandmarkList) (tipIdx pipIdx : nat) (c : bool) :
  isFingerClosed hand tipIdx pipIdx = Some c ->
  (tipIdx < length hand)%nat /\ (pipIdx < length hand)%nat.
Proof.
  unfold isFingerClosed. intros E.
  destruct (hand !! tipIdx) as [t|] eqn:Ht; [|discriminate].
  destruct (hand !! pipIdx) as [p|] eqn:Hp; [|discriminate].
  split; eapply lookup_lt_Some; eassumption.
Qed.

(** X1. When hands are reported, the handler throws exactly when the first
    hand has fewer than 21 landmarks; the hands after the first play no
    part. *)
Theorem onResults_throws_iff_hand_short
    (hand : NormalizedLandmarkList) (others : list NormalizedLandmarkList) :
  onResults (Some (hand :: others)) = None <-> (length hand <= 20)%nat.
Proof.
  split.
  - intros E. destruct (Nat.le_gt_cases (length hand) 20) as [L|L]; [exact L|].
    destruct (onResults_vote hand others) as [text V].
    + revert E. unfold onResults.
      rewrite !isFingerClosed_tipBelowJoint by lia. discriminate.
    + congruence.
  - intros L. unfold onResults.
    destruct (isFingerClosed hand 8 6) as [c1|]; [|reflexivity].
    destruct (isFingerClosed hand 12 10) as [c2|]; [|reflexivity].
    destruct (isFingerClosed hand 16 14) as [c3|]; [|reflexivity].
    destruct (isFingerClosed hand 20 18) as [c4|] eqn:E4; [|reflexivity].
    apply isFingerClosed_Some_length in E4. lia.
Qed.

(** X2. The text the handler shows always agrees with the value it sends:
    it reads FIST DETECTED exactly when it sends [true], and No Hand
    exactly when no hand was reported. *)
Theorem onResults_text_agrees_with_value
    (results : Results) (text : string) (isFist : bool) :
  onResults results = Some (text, isFist) ->
  (text = "FIST DETECTED" <-> isFist = true) /\
  (text = "No Hand" <-> results = None \/ results = Some []) /\
  (text = "FIST DETECTED" \/ text = "OPEN HAND" \/ text = "No Hand").
Proof.
  unfold onResults. destruct results as [[|hand others]|].
  - intros [= <- <-]. repeat split; auto; discriminate.
  - destruct (isFingerClosed hand 8 6) as [c1|]; [|discriminate].
    destruct (isFingerClosed hand 12 10) as [c2|]; [|discriminate].
    destruct (isFingerClosed hand 16 14) as [c3|]; [|discriminate].
    destruct (isFingerClosed hand 20 18) as [c4|]; [|discriminate].
    cbn [mbind option_bind].
    destruct (3 <=? _)%nat; intros [= <- <-];
      repeat split; auto; try discriminate; intros [|]; discriminate.
  - intros [= <- <-]. repeat split; auto; discriminate.
Qed.

Lemma onResults_text_agrees_with_value_witness :
  onResults (Some [threeCurled]) = Some ("FIST DETECTED", true) /\
  ("FIST DETECTED" = "FIST DETECTED" <-> true = true).
Proof.
  split; [reflexivity|].
  apply (onResults_text_agrees_with_value (Some [threeCurled]) "FIST DETECTED" true eq_refl).
Defined.

(** X3. Curling more fingers never loses a fist: if every tracked finger
    that is curled in one full hand is curled in another, and the first is
    classified as a fist, so is the second. *)
Theorem more_curled_fingers_keep_fist (hand1 hand2 : NormalizedLandmarkList) :
  length hand1 = 21%nat -> length hand2 = 21%nat ->
  (forall f, f ∈ trackedFingers -> tipBelowJoint hand1 f = true -> tipBelowJoint hand2 f = true) ->
  App.classify (Some hand1) = Some merged -> App.classify (Some hand2) = Some merged.
Proof.
  intros L1 L2 M.
  destruct (onResults_vote hand1 [] L1) as [t1 E1].
  destruct (onResults_vote hand2 [] L2) as [t2 E2].
  unfold App.classify. cbn [option_map]. rewrite E1, E2. cbn [mbind option_bind].
  assert (C : (closedCount hand1 <= closedCount hand2)%nat).
  { unfold closedCount.
    assert (M1 := M (8, 6)%nat ltac:(unfold trackedFingers; repeat constructor)).
    assert (M2 := M (12, 10)%nat ltac:(unfold trackedFingers; repeat constructor)).
    assert (M3 := M (16, 14)%nat ltac:(unfold trackedFingers; repeat constructor)).
    assert (M4 := M (20, 18)%nat ltac:(unfold trackedFingers; repeat constructor)).
    unfold trackedFingers. cbn [List.filter].
    destruct (tipBelowJoint hand1 (8, 6)); [rewrite (M1 eq_refl) | clear M1];
      (destruct (tipBelowJoint hand1 (12, 10)); [rewrite (M2 eq_refl) | clear M2]);
      (destruct (tipBelowJoint hand1 (16, 14)); [rewrite (M3 eq_refl) | clear M3]);
      (destruct (tipBelowJoint hand1 (20, 18)); [rewrite (M4 eq_refl) | clear M4]);
      repeat match goal with
             | |- context [tipBelowJoint hand2 ?f] => destruct (tipBelowJoint hand2 f)
             end;
      cbn [length]; lia. }
  destruct (Nat.leb_spec 3 (closedCount hand1)) as [G|G]; [|discriminate].
  intros _. destruct (Nat.leb_spec 3 (closedCount hand2)); [reflexivity | lia].
Qed.

Lemma more_curled_fingers_keep_fist_witness :
  App.classify (Some fourCurled) = Some merged.
Proof.
  apply (more_curled_fingers_keep_fist threeCurled fourCurled eq_refl eq_refl).
  - intros f F _. unfold trackedFingers in F.
    repeat (apply elem_of_cons in F as [->|F]; [reflexivity|]).
    apply elem_of_nil in F. contradiction.
  - reflexivity.
Defined.
End ClassifierEdges.

Section ClassifierEdgeWitnesses.
Import HandController Samples.

Lemma onResults_throws_iff_hand_short_witness :
  onResults (Some [shortHand; threeCurled]) = None.
Proof.
  apply (onResults_throws_iff_hand_short shortHand [threeCurled]).
  vm_compute. lia.
Defined.
End ClassifierEdgeWitnesses.

(* ================================================================== *)
(** ** The application's state *)

Section AppState.
Import SolarSystem Samples.

(** X4. The classification has no memory: while the camera is shown, the
    state after a result that the handler accepts depends on that result
    alone, whatever was delivered before; a result on which the handler
    throws leaves the state of the result before it. *)
Theorem latest_result_decides (earlier latest : HandController.Results) (s : App.State) :
  App.cameraEnabled s = true ->
  (HandController.onResults latest <> None ->
     App.deliver latest (App.deliver earlier s) = App.deliver latest s) /\
  (HandController.onResults latest = None ->
     App.deliver latest (App.deliver earlier s) = App.deliver earlier s).
Proof.
  intros _. unfold App.deliver. split; intros L.
  - destruct (HandController.onResults latest) as [[t v]|]; [|congruence].
    destruct (HandController.onResults earlier) as [[t' v']|]; reflexivity.
  - now rewrite L.
Qed.

Lemma latest_result_decides_witness :
  App.systemState
    (App.deliver (Some []) (App.deliver (Some [threeCurled]) App.init)) = normal /\
  App.systemState
    (App.deliver (Some [shortHand]) (App.deliver (Some [threeCurled]) App.init)) = merged.
Proof.
  destruct (latest_result_decides (Some [threeCurled]) (Some []) App.init eq_refl) as [W _].
  destruct (latest_result_decides (Some [threeCurled]) (Some [shortHand]) App.init eq_refl)
    as [_ V].
  split.
  - rewrite W by discriminate. reflexivity.
  - rewrite V by reflexivity. reflexivity.
Defined.

End AppState.

(* ================================================================== *)
(** ** A loop in which one step writes a cell *)

Section SingleWrite.
Context {St K O : Type}.
Variables (f : St -> K -> St) (obs : St -> O).
Variables (Inv : St -> Prop) (dom hit : K -> Prop) (W : O -> O) (k : K).
Hypothesis inv_step : forall s k', dom k' -> Inv s -> Inv (f s k').
Hypothesis frame : forall s k', dom k' -> Inv s -> ~ hit k' -> obs (f s k') = obs s.
Hypothesis write : forall s, Inv s -> obs (f s k) = W (obs s).

Lemma fold_left_single_writer (before after : list K) (s : St) :
  dom k -> Forall dom before -> Forall dom after ->
  Forall (fun k' => ~ hit k') before -> Forall (fun k' => ~ hit k') after ->
  Inv s ->
  obs (fold_left f (before ++ k :: after) s) = W (obs s).
Proof using inv_step frame write.
  intros Dk Db Da Nb Na I. rewrite fold_left_app. cbn [fold_left].
  assert (Ib : Inv (fold_left f before s)) by (apply (fold_left_inv f Inv dom); auto).
  rewrite (fold_left_untouched f obs Inv dom hit) by auto.
  rewrite write by exact Ib.
  now rewrite (fold_left_untouched f obs Inv dom hit) by auto.
Qed.
End SingleWrite.

Lemma seq_split_at (n i : nat) :
  (i < n)%nat -> seq 0 n = seq 0 i ++ i :: seq (S i) (n - S i).
Proof.
  intros L. replace n with (i + S (n - S i))%nat at 1 by lia.
  rewrite seq_app. reflexivity.
Qed.

(* ================================================================== *)
(** ** Every planet's texture *)

Section AllTextures.
Context `{Host}.
Import THREE SolarSystem Props.

Lemma toUint8Clamp_byte (v : float) : byte (toUint8Clamp v).
Proof.
  unfold byte, toUint8Clamp.
  destruct (Prim2SF v) as [s|s| |s m e]; try lia; try (destruct s; lia).
  destruct s; [lia|].
  destruct (0 <=? e)%Z eqn:E.
  - apply Z.leb_le in E. assert (0 < 2 ^ e)%Z by (apply Z.pow_pos_nonneg; lia). nia.
  - apply Z.leb_gt in E. assert (D : (0 < 2 ^ (- e))%Z) by (apply Z.pow_pos_nonneg; lia).
    assert (Q : (0 <= Z.pos m / 2 ^ (- e))%Z) by (apply Z.div_pos; lia).
    cbv zeta. destruct (2 * (Z.pos m mod 2 ^ (- e)) ?= 2 ^ (- e))%Z;
      [destruct (Z.even _)| |]; lia.
Qed.

Lemma pixelAt_Some (data : list Z) (i : nat) (r g b a : Z) :
  pixelAt data i = Some (r, g, b, a) <->
  data !! i = Some r /\ data !! (i + 1)%nat = Some g /\
  data !! (i + 2)%nat = Some b /\ data !! (i + 3)%nat = Some a.
Proof.
  unfold pixelAt.
  destruct (data !! i), (data !! (i + 1)%nat), (data !! (i + 2)%nat), (data !! (i + 3)%nat);
    cbn [mbind option_bind]; split; try discriminate; try (intros (? & ? & ? & ?); discriminate).
  - intros [= -> -> -> ->]. auto.
  - intros ([= ->] & [= ->] & [= ->] & [= ->]). reflexivity.
Qed.

Lemma pixelAt_is_Some (data : list Z) (i : nat) :
  (i + 3 < length data)%nat -> exists px, pixelAt data i = Some px.
Proof.
  intros L.
  destruct (lookup_lt_is_Some_2 data i ltac:(lia)) as [r Hr].
  destruct (lookup_lt_is_Some_2 data (i + 1) ltac:(lia)) as [g Hg].
  destruct (lookup_lt_is_Some_2 data (i + 2) ltac:(lia)) as [b Hb].
  destruct (lookup_lt_is_Some_2 data (i + 3) ltac:(lia)) as [a Ha].
  exists (r, g, b, a). now apply pixelAt_Some.
Qed.

Ltac insert_lookups :=
  repeat first
    [ rewrite list_lookup_insert_ne by lia
    | rewrite list_lookup_insert_eq by (rewrite ?length_insert; lia) ].

(** What the loop body makes of the texel it is run for. *)
Lemma paintTexel_own (name : string) (size y x : nat) (data : list Z) (px : Z * Z * Z * Z) :
  pixelAt data (texelIndex size y x) = Some px ->
  pixelAt (paintTexel name size y x data) (texelIndex size y x) =
  Some (texelColour name size y x px).
Proof.
  destruct px as [[[r g] b] a]. intros P.
  apply pixelAt_Some in P as (Hr & Hg & Hb & Ha).
  assert (L : (texelIndex size y x + 3 < length data)%nat) by (eapply lookup_lt_Some; eauto).
  unfold paintTexel, texelColour, jupiterSample, primarySample, cloudSample,
    jupiterBand, earthTexel, tinted, js_gt, js_lt, setRGB, readChannel.
  fold (texelIndex size y x). cbv zeta.
  set (i := texelIndex size y x) in *.
  destruct (String.eqb name "Jupiter"); [|destruct (String.eqb name "Earth")].
  - destruct (PrimFloat.ltb 0.3 _); [|destruct (PrimFloat.ltb _ (-0.2))];
      apply pixelAt_Some; insert_lookups; auto.
  - destruct (PrimFloat.ltb 0.5 _), (PrimFloat.ltb 0.15 _);
      apply pixelAt_Some; insert_lookups; auto.
  - apply pixelAt_Some. insert_lookups. rewrite Hr, Hg, Hb. auto.
Qed.

Lemma paintRow_length (name : string) (size y : nat) (data : list Z) :
  length (paintRow name size y data) = length data.
Proof.
  unfold paintRow.
  apply (fold_left_inv _ (fun d => length d = length data) (fun _ => True)); auto.
  - intros s k _ <-. apply paintTexel_length.
  - apply Forall_forall. trivial.
Qed.

Lemma paintRows_length (name : string) (size : nat) (data : list Z) :
  length (paintRows name size data) = length data.
Proof.
  unfold paintRows.
  apply (fold_left_inv _ (fun d => length d = length data) (fun _ => True)); auto.
  - intros s k _ <-. apply paintRow_length.
  - apply Forall_forall. trivial.
Qed.

Lemma paintRow_own (name : string) (size y x : nat) (data : list Z) (px : Z * Z * Z * Z) :
  (x < size)%nat -> pixelAt data (texelIndex size y x) = Some px ->
  pixelAt (paintRow name size y data) (texelIndex size y x) =
  Some (texelColour name size y x px).
Proof.
  intros Hx P. unfold paintRow. rewrite (seq_split_at size x Hx).
  assert (L : (texelIndex size y x + 3 < length data)%nat)
    by (destruct px as [[[r g] b] a]; apply pixelAt_Some in P as (_ & _ & _ & Ha);
        eapply lookup_lt_Some; eauto).
  rewrite (fold_left_single_writer _ (fun d => pixelAt d (texelIndex size y x))
             (fun d => (texelIndex size y x + 3 < length d)%nat)
             (fun k => (k < size)%nat) (fun k => k = x)
             (fun o => px ← o; Some (texelColour name size y x px))).
  - rewrite P. reflexivity.
  - intros s k' _ I. now rewrite paintTexel_length.
  - intros s k' Hk _ Hne. apply paintTexel_other_pixel.
    intros E. apply texelIndex_inj in E; [tauto | lia | lia].
  - intros s I. destruct (pixelAt_is_Some s _ I) as [q Q]. rewrite Q.
    now apply paintTexel_own.
  - exact Hx.
  - apply Forall_seq. intros; lia.
  - apply Forall_seq. intros; lia.
  - apply Forall_seq. intros; lia.
  - apply Forall_seq. intros; lia.
  - exact L.
Qed.

(** After the two loops, each texel is what the rule of its planet makes
    of the texel the canvas had there, and of nothing else. *)
Lemma paintRows_own (name : string) (size y x : nat) (data : list Z) (px : Z * Z * Z * Z) :
  (x < size)%nat -> (y < size)%nat -> pixelAt data (texelIndex size y x) = Some px ->
  pixelAt (paintRows name size data) (texelIndex size y x) =
  Some (texelColour name size y x px).
Proof.
  intros Hx Hy P. unfold paintRows. rewrite (seq_split_at size y Hy).
  assert (L : (texelIndex size y x + 3 < length data)%nat)
    by (destruct px as [[[r g] b] a]; apply pixelAt_Some in P as (_ & _ & _ & Ha);
        eapply lookup_lt_Some; eauto).
  rewrite (fold_left_single_writer _ (fun d => pixelAt d (texelIndex size y x))
             (fun d => (texelIndex size y x + 3 < length d)%nat)
             (fun _ => True) (fun k => k = y)
             (fun o => px ← o; Some (texelColour name size y x px))).
  - rewrite P. reflexivity.
  - intros s k' _ I. now rewrite paintRow_length.
  - intros s k' _ _ Hne. now apply paintRow_other_row.
  - intros s I. destruct (pixelAt_is_Some s _ I) as [q Q]. rewrite Q.
    now apply paintRow_own.
  - exact I.
  - apply Forall_forall. trivial.
  - apply Forall_forall. trivial.
  - apply Forall_seq. intros; lia.
  - apply Forall_seq. intros; lia.
  - exact L.
Qed.
End AllTextures.

Section TextureInvariants.
Context `{Host}.
Import THREE SolarSystem Props.

Lemma fillRect_length (colorHex : string) (w h : nat) :
  length (fillRect colorHex w h) = (w * h * 4)%nat.
Proof.
  unfold fillRect. destruct (parseColor colorHex) as [[r g] b].
  generalize (w * h)%nat as n. intros n.
  induction n as [|n IH]; [reflexivity|].
  cbn [replicate concat]. rewrite length_app, IH. cbn [length]. lia.
Qed.

Lemma fillRect_pixel (colorHex : string) (w h k : nat) (r g b : Z) :
  parseColor colorHex = (r, g, b) -> (k < w * h)%nat ->
  pixelAt (fillRect colorHex w h) (k * 4) = Some (r, g, b, 255%Z).
Proof.
  unfold fillRect. intros ->.
  generalize (w * h)%nat as n. intros n. revert k.
  induction n as [|n IH]; intros k Hk; [lia|].
  destruct k as [|k]; [reflexivity|].
  specialize (IH k ltac:(lia)). apply pixelAt_Some in IH as (Hr & Hg & Hb & Ha).
  apply pixelAt_Some. cbn [replicate concat].
  replace (S k * 4)%nat with (4 + k * 4)%nat by lia.
  replace (4 + k * 4 + 1)%nat with (4 + (k * 4 + 1))%nat by lia.
  replace (4 + k * 4 + 2)%nat with (4 + (k * 4 + 2))%nat by lia.
  replace (4 + k * 4 + 3)%nat with (4 + (k * 4 + 3))%nat by lia.
  rewrite !(lookup_app_r [r; g; b; 255%Z]) by (cbn [length]; lia).
  cbn [length].
  replace (4 + k * 4 - 4)%nat with (k * 4)%nat by lia.
  replace (4 + (k * 4 + 1) - 4)%nat with (k * 4 + 1)%nat by lia.
  replace (4 + (k * 4 + 2) - 4)%nat with (k * 4 + 2)%nat by lia.
  replace (4 + (k * 4 + 3) - 4)%nat with (k * 4 + 3)%nat by lia.
  auto.
Qed.

Lemma fillRect_bytes (colorHex : string) (w h : nat) (r g b : Z) :
  parseColor colorHex = (r, g, b) -> byte r -> byte g -> byte b ->
  Forall byte (fillRect colorHex w h).
Proof.
  unfold fillRect. intros -> Br Bg Bb.
  generalize (w * h)%nat as n. intros n.
  induction n as [|n IH]; [constructor|].
  cbn [replicate concat]. apply Forall_app. split; [|exact IH].
  constructor; [exact Br|]. constructor; [exact Bg|]. constructor; [exact Bb|].
  constructor; [unfold byte; lia | constructor].
Qed.

Lemma paintTexel_bytes (name : string) (size y x : nat) (data : list Z) :
  Forall byte data -> Forall byte (paintTexel name size y x data).
Proof.
  intros B. unfold paintTexel, setRGB. cbv zeta.
  repeat match goal with
         | |- context [if ?c then _ else _] => destruct c
         end;
    repeat apply Forall_insert; auto using toUint8Clamp_byte; unfold byte; lia.
Qed.

Lemma paintRows_bytes (name : string) (size : nat) (data : list Z) :
  Forall byte data -> Forall byte (paintRows name size data).
Proof.
  intros B. unfold paintRows.
  apply (fold_left_inv _ (Forall byte) (fun _ => True)); auto.
  - intros s y _ Bs. unfold paintRow.
    apply (fold_left_inv _ (Forall byte) (fun _ => True)); auto.
    + intros s' x _. apply paintTexel_bytes.
    + apply Forall_forall. trivial.
  - apply Forall_forall. trivial.
Qed.

(** No step of the loops writes an alpha channel. *)
Lemma paintRows_alpha (name : string) (size k : nat) (data : list Z) :
  paintRows name size data !! (k * 4 + 3)%nat = data !! (k * 4 + 3)%nat.
Proof.
  unfold paintRows.
  apply (fold_left_untouched _ (fun d => d !! (k * 4 + 3)%nat)
           (fun _ => True) (fun _ => True) (fun _ => False)); auto.
  - intros s y _ _ _. unfold paintRow.
    apply (fold_left_untouched _ (fun d => d !! (k * 4 + 3)%nat)
             (fun _ => True) (fun _ => True) (fun _ => False)); auto.
    + intros s' x _ _ _. apply paintTexel_frame. unfold texelIndex. lia.
    + apply Forall_forall. trivial.
    + apply Forall_forall. auto.
  - apply Forall_forall. trivial.
  - apply Forall_forall. auto.
Qed.

(** X6. Whatever the planet, the texture built for it is a canvas of 512
    by 512 texels of four channels, every channel a value from 0 to 255
    (given that the base colour is), and every texel fully opaque. *)
Theorem planet_texture_is_opaque_bytes (name colorHex : string) (r g b : Z) :
  parseColor colorHex = (r, g, b) -> byte r -> byte g -> byte b ->
  exists data,
    createPlanetTexture (Some Context2D) name colorHex =
      CanvasTexture (mkCanvas 512 512 (ImageData data)) /\
    length data = (512 * 512 * 4)%nat /\
    Forall byte data /\
    (forall k, (k < 512 * 512)%nat -> data !! (k * 4 + 3)%nat = Some 255%Z).
Proof.
  intros P Br Bg Bb. eexists. split; [reflexivity|]. split; [|split].
  - rewrite paintRows_length. apply fillRect_length.
  - apply paintRows_bytes. eapply fillRect_bytes; eauto.
  - intros k Hk. rewrite paintRows_alpha. now apply fillRect_opaque.
Qed.

Lemma planet_texel (name colorHex : string) (r g b : Z) (x y : nat) :
  parseColor colorHex = (r, g, b) -> (x < 512)%nat -> (y < 512)%nat ->
  pixelAt (paintRows name 512 (fillRect colorHex 512 512)) (texelIndex 512 y x) =
  Some (texelColour name 512 y x (r, g, b, 255%Z)).
Proof.
  intros P Hx Hy. apply paintRows_own; [exact Hx | exact Hy |].
  unfold texelIndex. apply fillRect_pixel; [exact P|].
  assert ((y + 1) * 512 <= 512 * 512)%nat by (apply Nat.mul_le_mono_r; lia). lia.
Qed.

(** X7. In the texture built for Jupiter every texel takes one of three
    colours, chosen by its noise sample alone: light tan above 0.3, dark
    rust below -0.2, mid tan otherwise; the base colour plays no part. *)
Theorem jupiter_texels_are_banded (colorHex : string) (x y : nat) :
  (x < 512)%nat -> (y < 512)%nat ->
  exists data,
    createPlanetTexture (Some Context2D) "Jupiter" colorHex =
      CanvasTexture (mkCanvas 512 512 (ImageData data)) /\
    pixelAt data (texelIndex 512 y x) = Some (jupiterBand (jupiterSample 512 y x)) /\
    (pixelAt data (texelIndex 512 y x) = Some (210, 180, 140, 255)%Z \/
     pixelAt data (texelIndex 512 y x) = Some (160, 100, 60, 255)%Z \/
     pixelAt data (texelIndex 512 y x) = Some (190, 150, 110, 255)%Z).
Proof.
  intros Hx Hy. eexists. split; [reflexivity|].
  destruct (parseColor colorHex) as [[r g] b] eqn:P.
  pose proof (planet_texel "Jupiter" colorHex r g b x y P Hx Hy) as T.
  assert (E : texelColour "Jupiter" 512 y x (r, g, b, 255%Z) =
              jupiterBand (jupiterSample 512 y x)).
  { unfold texelColour. change (String.eqb "Jupiter" "Jupiter") with true. cbv iota.
    unfold jupiterBand.
    destruct (PrimFloat.ltb 0.3 _); [|destruct (PrimFloat.ltb _ (-0.2))]; reflexivity. }
  rewrite E in T. split; [exact T|]. rewrite T. unfold jupiterBand.
  destruct (PrimFloat.ltb 0.3 _); [|destruct (PrimFloat.ltb _ (-0.2))]; auto.
Qed.

Lemma tinted_zero (base : Z) :
  byte base -> tinted base 0 = base /\ tinted base (-0) = base.
Proof.
  intros B.
  assert (A : forallb (fun v => (tinted v 0 =? v)%Z && (tinted v (-0) =? v)%Z)
                (map Z.of_nat (seq 0 256)) = true) by (vm_compute; reflexivity).
  rewrite forallb_forall in A. specialize (A base).
  assert (I : In base (map Z.of_nat (seq 0 256))).
  { apply in_map_iff. exists (Z.to_nat base). unfold byte in B.
    split; [lia | apply in_seq; lia]. }
  apply A in I. apply andb_true_iff in I as [I1 I2].
  split; now apply Z.eqb_eq.
Qed.

(** X8. In the texture of any planet other than Jupiter and Earth, each
    colour channel of each texel is the channel of the base colour shifted
    by twenty times the texel's noise sample, kept within 0..255 and
    rounded; where the sample is zero the texel keeps the base colour. *)
Theorem plain_texels_tint_base_colour (name colorHex : string) (r g b : Z) (x y : nat) :
  name <> "Jupiter" -> name <> "Earth" ->
  parseColor colorHex = (r, g, b) -> (x < 512)%nat -> (y < 512)%nat ->
  exists data,
    createPlanetTexture (Some Context2D) name colorHex =
      CanvasTexture (mkCanvas 512 512 (ImageData data)) /\
    let n := primarySample 512 y x in
    pixelAt data (texelIndex 512 y x) = Some (tinted r n, tinted g n, tinted b n, 255%Z) /\
    (byte r -> byte g -> byte b -> n = 0%float \/ n = (-0)%float ->
       pixelAt data (texelIndex 512 y x) = Some (r, g, b, 255%Z)).
Proof.
  intros NJ NE P Hx Hy. eexists. split; [reflexivity|]. cbn zeta.
  pose proof (planet_texel name colorHex r g b x y P Hx Hy) as T.
  unfold texelColour in T.
  destruct (String.eqb_spec name "Jupiter") as [|_]; [contradiction|].
  destruct (String.eqb_spec name "Earth") as [|_]; [contradiction|].
  cbv zeta in T. split; [exact T|].
  intros Br Bg Bb Z0. rewrite T.
  destruct (tinted_zero r Br), (tinted_zero g Bg), (tinted_zero b Bb).
  destruct Z0 as [-> | ->]; congruence.
Qed.
End TextureInvariants.

Section TextureInvariantWitnesses.
Import THREE SolarSystem Props Samples.

Lemma planet_texture_is_opaque_bytes_witness :
  exists data,
    @createPlanetTexture flatHost (Some Context2D) "Saturn" "#eebb88" =
      CanvasTexture (mkCanvas 512 512 (ImageData data)) /\
    length data = (512 * 512 * 4)%nat /\ Forall byte data.
Proof.
  destruct (@planet_texture_is_opaque_bytes flatHost "Saturn" "#eebb88" 34 119 255 eq_refl)
    as (data & E & L & B & _);
    [unfold byte; lia | unfold byte; lia | unfold byte; lia |].
  exists data. split; [exact E | split; [exact L | exact B]].
Defined.

Lemma jupiter_texels_are_banded_witness :
  exists data,
    @createPlanetTexture flatHost (Some Context2D) "Jupiter" "#dcb288" =
      CanvasTexture (mkCanvas 512 512 (ImageData data)) /\
    pixelAt data (texelIndex 512 7 9) = Some (190, 150, 110, 255)%Z.
Proof.
  destruct (@jupiter_texels_are_banded flatHost "#dcb288" 9 7) as (data & E & P & _);
    [lia | lia |].
  exists data. split; [exact E | exact P].
Defined.

Lemma plain_texels_tint_base_colour_witness :
  exists data,
    @createPlanetTexture flatHost (Some Context2D) "Mars" "#c1440e" =
      CanvasTexture (mkCanvas 512 512 (ImageData data)) /\
    pixelAt data (texelIndex 512 7 9) = Some (38, 123, 255, 255)%Z.
Proof.
  destruct (@plain_texels_tint_base_colour flatHost "Mars" "#c1440e" 34 119 255 9 7)
    as (data & E & P & _); [discriminate | discriminate | reflexivity | lia | lia |].
  exists data. split; [exact E | exact P].
Defined.
End TextureInvariantWitnesses.

(* ================================================================== *)
(** ** More on the frame loop *)

Section SceneInvariants.
Context `{Host}.
Import THREE SolarSystem Props.
Local Open Scope float_scope.

Lemma animateGroup_fixedData (isMerged : bool) (g : Group) :
  fixedDataOf (animateGroup isMerged g) = fixedDataOf g.
Proof.
  unfold fixedDataOf, animateGroup.
  destruct isMerged; [destruct (String.eqb _ _)|]; reflexivity.
Qed.

(** X9. In every scene the program can reach there are exactly the eight
    planet groups and eight orbit rings it was built with, and each group
    still carries the name, the orbit radius and the speed of its row of
    the planet table, in the table's order: no frame adds, drops, reorders
    or relabels a body. *)
Theorem frames_keep_the_planet_table (s : Scene) :
  reachable s ->
  map fixedDataOf (planetGroups s) = map fixedData PLANETS /\
  length (planetGroups s) = 8%nat /\
  length (orbitOpacity s) = 8%nat.
Proof.
  induction 1 as [random | systemState now s R (IH1 & IH2 & IH3)].
  - repeat split; reflexivity.
  - unfold animate. cbn [planetGroups orbitOpacity].
    rewrite map_map, !length_map. split; [|split; assumption].
    rewrite <- IH1. apply map_ext. intros g. apply animateGroup_fixedData.
Qed.

Lemma lerp_uniform (v : Vector3 float) (target alpha : float) :
  isUniform v -> isUniform (lerp v (uniform target) alpha).
Proof.
  unfold isUniform, lerp, uniform. cbn [x y z]. intros [-> ->]. split; reflexivity.
Qed.

Lemma animateGroup_uniform (isMerged : bool) (g : Group) :
  isUniform (scale g) -> isUniform (scale (animateGroup isMerged g)).
Proof.
  intros U. unfold animateGroup.
  destruct isMerged; [destruct (String.eqb _ _)|]; cbn [scale];
    now apply (lerp_uniform (scale g)).
Qed.

(** X10. In every scene the program can reach, the sun and every planet
    group are scaled by the same amount along the three axes: the loop
    grows and shrinks bodies but never distorts them. *)
Theorem bodies_are_never_distorted (s : Scene) :
  reachable s ->
  isUniform (sun_scale (sun s)) /\ Forall (fun g => isUniform (scale g)) (planetGroups s).
Proof.
  induction 1 as [random | systemState now s R [IHs IHg]].
  - split; [split; reflexivity|].
    unfold initScene, PLANETS. cbn [planetGroups imap]. repeat constructor.
  - unfold animate. cbn [sun sun_scale planetGroups]. split.
    + destruct (SystemState_eqb systemState merged);
        now apply (lerp_uniform (sun_scale (sun s))).
    + apply Forall_fmap. eapply Forall_impl; [exact IHg|].
      intros g U. now apply animateGroup_uniform.
Qed.

Lemma animate_normal_atRest (now : float) (s : Scene) :
  atRest s -> atRest (animate normal now s).
Proof.
  intros (S1 & S2 & S3 & S4). unfold atRest, animate.
  cbn [sun sun_scale sunSprite_visible planetGroups orbitOpacity SystemState_eqb negb].
  split; [rewrite S1; reflexivity|]. split; [reflexivity|]. split.
  - apply Forall_fmap. eapply Forall_impl; [exact S3|].
    intros g E. unfold animateGroup. cbn [scale compose]. rewrite E. reflexivity.
  - apply Forall_fmap. eapply Forall_impl; [exact S4|].
    intros o ->. reflexivity.
Qed.

(** X11. As long as every frame runs in the orbiting state, interpolation
    moves nothing but positions: after any number of such frames from the
    start the sun and all planets have scale exactly 1, the glow sprite is
    visible and every orbit ring has opacity exactly 0.2. *)
Theorem orbiting_frames_leave_scene_at_rest (random : nat -> float) (clocks : list float) :
  let s := playFrames (map (fun now => (normal, now)) clocks) (initScene random) in
  sun_scale (sun s) = uniform 1 /\
  sunSprite_visible (sun s) = true /\
  Forall (fun g => scale g = uniform 1) (planetGroups s) /\
  Forall (fun opacity => opacity = 0.2) (orbitOpacity s).
Proof.
  cbn zeta. change (atRest (playFrames (map (fun now => (normal, now)) clocks) (initScene random))).
  assert (I : atRest (initScene random)).
  { unfold atRest, initScene, PLANETS.
    cbn [sun sun_scale sunSprite_visible planetGroups orbitOpacity imap map].
    repeat split; repeat constructor. }
  revert I. generalize (initScene random) as s.
  induction clocks as [|now clocks IH]; intros s I; [exact I|].
  cbn [map]. unfold playFrames. cbn [fold_left fst snd].
  apply IH. now apply animate_normal_atRest.
Qed.

Lemma animateGroup_userData (isMerged : bool) (g : Group) :
  userData (animateGroup isMerged g) =
  if isMerged then userData g else advanceAngle (userData g).
Proof.
  unfold animateGroup, advanceAngle.
  destruct isMerged; [destruct (String.eqb _ _)|]; reflexivity.
Qed.

Lemma iter_advanceAngle_comm (n : nat) (u : UserData) :
  Nat.iter n advanceAngle (advanceAngle u) = advanceAngle (Nat.iter n advanceAngle u).
Proof.
  induction n as [|n IH]; [reflexivity|]. now rewrite !Nat.iter_succ, IH.
Qed.

(** X12. The angle integrator sees only the orbiting frames: after any
    sequence of frames a group's user data is what as many integrator
    steps as the sequence has orbiting frames make of it, wherever the
    merged frames fall and whatever the clock reads. *)
Theorem merged_frames_only_pause_the_orbit
    (frames : list (SystemState * float)) (s : Scene) :
  map userData (planetGroups (playFrames frames s)) =
  map (fun g => Nat.iter (orbitingFrames frames) advanceAngle (userData g)) (planetGroups s).
Proof.
  revert s. induction frames as [|[st now] frames IH]; intros s.
  - cbn. apply map_ext. reflexivity.
  - unfold playFrames. cbn [fold_left fst snd]. fold (playFrames frames (animate st now s)).
    rewrite IH. unfold animate at 1. cbn [planetGroups]. rewrite map_map.
    apply map_ext. intros g. rewrite animateGroup_userData.
    unfold orbitingFrames. cbn [List.filter fst].
    destruct st; cbn [SystemState_eqb length].
    + now rewrite iter_advanceAngle_comm, Nat.iter_succ.
    + reflexivity.
Qed.
End SceneInvariants.

Section SceneInvariantWitnesses.
Import THREE SolarSystem Props Samples.
Local Open Scope float_scope.

Lemma frames_keep_the_planet_table_witness :
  map fixedDataOf (planetGroups (mergeThenOrbit 3)) = map fixedData PLANETS.
Proof.
  apply (@frames_keep_the_planet_table flatHost).
  unfold mergeThenOrbit. cbn [Nat.iter]. repeat constructor.
Defined.

Lemma bodies_are_never_distorted_witness :
  Forall (fun g => isUniform (scale g)) (planetGroups (mergeThenOrbit 3)).
Proof.
  apply (@bodies_are_never_distorted flatHost).
  unfold mergeThenOrbit. cbn [Nat.iter]. repeat constructor.
Defined.
End SceneInvariantWitnesses.
